(** * mimic: browser fingerprint profiles and the fingerprint-aware transport

    A shallow embedding of the Go package [mimic] (version parsing, the
    Chromium / Safari / Firefox profile registries, [ClientSpec],
    [ConfigureTransport], [NewTransport] and [Transport.RoundTrip]) and the
    properties its specification states about them.

    Conventions of the embedding:
    - Go [int] and [uint32] values are [Z]; every comparison in the source is
      on values far from the 64-bit bounds, the only place where the range
      matters ([strconv.Atoi]) writes its bounds out.
    - Go strings are [string] (lists of bytes); [fmt.Sprintf] with [%s] verbs
      is concatenation.
    - A function returning [(T, error)] returns a sum [T + error]; a pointer
      that is mutated in place is threaded as the state it points to.
    - [http.Header] is [map[string][]string]: a [gmap] from names to slices,
      where a slice is [option (list string)] and [None] is the nil slice.
    - Code of the libraries the package calls ([strconv], [utls], [fhttp],
      [math/rand/v2]) is not part of the package: what the package relies on
      is collected in the classes [TLSCollaborator], [HTTPCollaborator] and
      [GoRuntime]. *)

From Stdlib Require Import ZArith Lia Ascii String.
From stdpp Require Import gmap strings list fin_maps.

Local Open Scope string_scope.
Local Open Scope Z_scope.

(** ** Errors *)

(** Error values created once with [errors.New] and compared by identity.
    [External] stands for an error value created inside a library. *)
Inductive sentinel : Type :=
  | ErrUnsupportedVersion
  | ErrUnsupportedPlatform
  | ErrSyntax
  | ErrRange
  | External (msg : string).

(** [NumError] is [*strconv.NumError]; [Errorf format args err] is
    [fmt.Errorf(format, args..., err)] with exactly one [%w] verb, which
    wraps [err]. *)
Inductive error : Type :=
  | Sentinel (s : sentinel)
  | NumError (Func Num : string) (Err : error)
  | Errorf (format : string) (args : list string) (wrapped : error).

#[global] Instance sentinel_eq_dec : EqDecision sentinel.
Proof. solve_decision. Defined.

(** [errors.Is(err, target)] for a sentinel target: walk the [Unwrap] chain. *)
Fixpoint errors_Is (err : error) (target : sentinel) : bool :=
  match err with
  | Sentinel s => bool_decide (s = target)
  | NumError _ _ inner => errors_Is inner target
  | Errorf _ _ inner => errors_Is inner target
  end.

(** [errors.As(err, *strconv.NumError)]: the first [NumError] of the chain. *)
Fixpoint errors_As_NumError (err : error) : option (string * string * error) :=
  match err with
  | Sentinel _ => None
  | NumError f n inner => Some (f, n, inner)
  | Errorf _ _ inner => errors_As_NumError inner
  end.

(** A parse error is an error that carries a [strconv.NumError]. *)
Definition isParseError (err : error) : bool :=
  match errors_As_NumError err with Some _ => true | None => false end.

(** ** Version parser *)

Module strconv.

Definition byteZ (c : ascii) : Z := Z.of_N (N_of_ascii c).

Definition isDigit (c : ascii) : bool := (48 <=? byteZ c) && (byteZ c <=? 57).

Definition maxUint64 : Z := 2 ^ 64 - 1.

(** The digit loop of [ParseUint(s, 10, 64)]: [cutoff] is the smallest
    number whose tenfold exceeds [maxUint64]; a byte that is not a decimal
    digit is a syntax error, an overflow is a range error (returned at
    once, before the rest of the string is looked at). *)
Fixpoint parseUintLoop (s : list ascii) (n : Z) : Z + sentinel :=
  match s with
  | [] => inl n
  | c :: rest =>
      if isDigit c then
        let d := byteZ c - 48 in
        if maxUint64 / 10 + 1 <=? n then inr ErrRange
        else
          let n1 := n * 10 + d in
          if maxUint64 <? n1 then inr ErrRange else parseUintLoop rest n1
      else inr ErrSyntax
  end.

Definition ParseUint (s : list ascii) : Z + sentinel :=
  match s with
  | [] => inr ErrSyntax
  | _ => parseUintLoop s 0
  end.

(** [ParseInt(s, 10, 0)] on a 64-bit platform: an optional sign, then
    [ParseUint]; the magnitude must fit [int64]. *)
Definition ParseInt (s : string) : Z + sentinel :=
  match list_ascii_of_string s with
  | [] => inr ErrSyntax
  | c :: rest =>
      let neg := bool_decide (c = "-"%char) in
      let digits :=
        if bool_decide (c = "+"%char) || neg then rest else c :: rest in
      match ParseUint digits with
      | inr e => inr e
      | inl un =>
          let cutoff := 2 ^ 63 in
          if negb neg && (cutoff <=? un) then inr ErrRange
          else if neg && (cutoff <? un) then inr ErrRange
          else inl (if neg then - un else un)
      end
  end.

(** [Atoi(s)] is [ParseInt(s, 10, 0)] with the error's [Func] set to
    ["Atoi"] (its fast path for short strings computes the same result). *)
Definition Atoi (s : string) : Z + error :=
  match ParseInt s with
  | inl n => inl n
  | inr e => inr (NumError "Atoi" s (Sentinel e))
  end.

End strconv.

Module strings.

(** [strings.SplitN(s, ".", 2)]: [s] cut at its first ['.'], or [s] alone
    when it has none. *)
Fixpoint SplitN_dot_2 (s : string) : list string :=
  match s with
  | EmptyString => [EmptyString]
  | String c rest =>
      if bool_decide (c = "."%char) then [EmptyString; rest]
      else
        match SplitN_dot_2 rest with
        | hd :: tl => String c hd :: tl
        | [] => [String c EmptyString]
        end
  end.

(** [strings.ReplaceAll(s, ".", "_")]. *)
Fixpoint ReplaceAll_dot_underscore (s : string) : string :=
  match s with
  | EmptyString => EmptyString
  | String c rest =>
      String (if bool_decide (c = "."%char) then "_"%char else c)
             (ReplaceAll_dot_underscore rest)
  end.

(** [strings.Contains(s, substr)]. *)
Fixpoint Contains (s substr : string) : bool :=
  String.prefix substr s ||
  match s with
  | EmptyString => false
  | String _ rest => Contains rest substr
  end.

End strings.

(** The first element of [strings.SplitN(version, ".", 2)]. *)
Definition majorPrefix (version : string) : string :=
  match strings.SplitN_dot_2 version with
  | hd :: _ => hd
  | [] => EmptyString
  end.

Definition parseMajorVersion (version : string) : (string * Z) + error :=
  let majorStr := majorPrefix version in
  match strconv.Atoi majorStr with
  | inr err => inr (Errorf "parsing major version %q: %w" [majorStr] err)
  | inl majorNum => inl (majorStr, majorNum)
  end.

(** ** Data model *)

(** [type Platform string] and [type Brand string] with their constants. *)
Definition Platform : Type := string.
Definition PlatformWindows : Platform := "win".
Definition PlatformMac : Platform := "mac".
Definition PlatformLinux : Platform := "linux".
Definition PlatformIOS : Platform := "ios".
Definition PlatformIPadOS : Platform := "ipados".

Definition Brand : Type := string.
Definition BrandChrome : Brand := "Google Chrome".
Definition BrandBrave : Brand := "Brave".
Definition BrandEdge : Brand := "Microsoft Edge".

(** The [utls.ClientHelloID] values the registries name. *)
Inductive ClientHelloID : Type :=
  | HelloChrome_100
  | HelloChrome_102
  | HelloChrome_106_Shuffle
  | HelloChrome_112_PSK_Shuf
  | HelloChrome_114_Padding_PSK_Shuf
  | HelloChrome_115_PQ
  | HelloChrome_120
  | HelloChrome_131
  | HelloChrome_133
  | HelloFirefox_55
  | HelloFirefox_56
  | HelloFirefox_63
  | HelloFirefox_65
  | HelloFirefox_99
  | HelloFirefox_102
  | HelloFirefox_105
  | HelloFirefox_120
  | HelloSafari_16_0
  | HelloIOS_14.

#[global] Instance ClientHelloID_eq_dec : EqDecision ClientHelloID.
Proof. solve_decision. Defined.

(** What the package uses of [utls]: [UTLSIdToSpec] returns a hello template
    and an error, given by its message ([None] is [nil]; an error of the
    library is a value of its own, [External]); [idClient] and [idVersion]
    are the [Client] and [Version] fields of an identifier. *)
Class TLSCollaborator : Type := {
  ClientHelloSpec : Type;
  UTLSIdToSpec : ClientHelloID -> ClientHelloSpec * option string;
  idClient : ClientHelloID -> string;
  idVersion : ClientHelloID -> string;
}.

(** [http2.Setting] and the setting identifiers of RFC 7540, section 6.5.2. *)
Definition SettingID : Type := Z.
Definition SettingHeaderTableSize : SettingID := 1.
Definition SettingEnablePush : SettingID := 2.
Definition SettingMaxConcurrentStreams : SettingID := 3.
Definition SettingInitialWindowSize : SettingID := 4.
Definition SettingMaxFrameSize : SettingID := 5.
Definition SettingMaxHeaderListSize : SettingID := 6.
Definition settingEnableConnectProtocol : SettingID := 8.

Record Setting : Type := { ID : SettingID; Val : Z }.

Record PriorityParam : Type := {
  StreamDep : Z;
  Exclusive : bool;
  Weight : Z;
}.

Record HTTP2Options : Type := {
  Settings : list Setting;
  PseudoHeaderOrder : list string;
  MaxHeaderListSize : Z;
  InitialWindowSize : Z;
  HeaderTableSize : Z;
  ConnectionFlow : Z;
  HeaderPriority : option PriorityParam;
}.

(** A Go [[]string]: [None] is the nil slice. *)
Abbreviation slice := (option (list string)).

(** [http.Header]. *)
Abbreviation Header := (gmap string slice).

(** The fields of [http2.Transport] that the package writes, and its zero
    value. *)
Record http2_Transport : Type := {
  t2_Settings : list Setting;
  t2_MaxHeaderListSize : Z;
  t2_InitialWindowSize : Z;
  t2_HeaderTableSize : Z;
  t2_TransportConnFlow : Z;
  t2_HeaderPriority : option PriorityParam;
}.

Definition http2_Transport_zero : http2_Transport :=
  {| t2_Settings := [];
     t2_MaxHeaderListSize := 0;
     t2_InitialWindowSize := 0;
     t2_HeaderTableSize := 0;
     t2_TransportConnFlow := 0;
     t2_HeaderPriority := None |}.

Section WithTLS.

Context `{TLS : TLSCollaborator}.

(** The supplier closure [func() *utls.ClientHelloSpec]. *)
Definition TLSSpecFunc : Type := unit -> ClientHelloSpec.

(** The fields of [http.Transport] that the package reads or writes:
    the ClientHello supplier, the HTTP/2 transport registered on it by
    [http2.ConfigureTransports], and what [defaultTransport] sets (durations
    in seconds). *)
Record http_Transport : Type := {
  GetTlsClientHelloSpec : option TLSSpecFunc;
  h2 : option http2_Transport;
  ProxyFromEnvironment : bool;
  DialTimeout : Z;
  DialKeepAlive : Z;
  ForceAttemptHTTP2 : bool;
  MaxIdleConns : Z;
  IdleConnTimeout : Z;
  TLSHandshakeTimeout : Z;
  ExpectContinueTimeout : Z;
}.

Record ClientSpec : Type := {
  version : string;
  http2Options : HTTP2Options;
  tlsSpecFn : Platform -> TLSSpecFunc + error;
  buildHeaders : Platform -> Header + error;
}.

Definition Version (c : ClientSpec) : string := version c.
Definition HTTP2Opts (c : ClientSpec) : HTTP2Options := http2Options c.
Definition ClientSpec_PseudoHeaderOrder (c : ClientSpec) : list string :=
  PseudoHeaderOrder (http2Options c).

Definition validateTLSHelloID (id : ClientHelloID) : option error :=
  match snd (UTLSIdToSpec id) with
  | Some msg =>
      Some (Errorf "resolving tls spec for %s %s: %w" [idClient id; idVersion id]
              (Sentinel (External msg)))
  | None => None
  end.

(** The identifier resolves: [UTLSIdToSpec] returns a nil error. *)
Definition Resolvable (id : ClientHelloID) : Prop :=
  snd (UTLSIdToSpec id) = None.

Definition newTLSSpecFunc (id : ClientHelloID) : TLSSpecFunc :=
  fun _ => fst (UTLSIdToSpec id).

End WithTLS.


(** ** Collaborators *)

(** ASCII lower-casing, used to say that header names are case-insensitive. *)
Definition toLowerByte (c : ascii) : ascii :=
  let n := strconv.byteZ c in
  if (65 <=? n) && (n <=? 90) then ascii_of_N (Z.to_N (n + 32)) else c.

Fixpoint toLower (s : string) : string :=
  match s with
  | EmptyString => EmptyString
  | String c rest => String (toLowerByte c) (toLower rest)
  end.

(** The annotation keys of [fhttp] under which a request carries its header
    order and its pseudo-header order. *)
Definition HeaderOrderKey : string := "Header-Order:".
Definition PHeaderOrderKey : string := "PHeader-Order:".

(** What the package uses of [fhttp]:
    - [CanonicalHeaderKey], the normalisation that [Header.Get] and
      [Header.Set] apply to a name; it changes at most the case of letters;
    - [http2_enable_error t], the message of the error of
      [http2.ConfigureTransports(t)] ([None] is [nil]; an error of the
      library is a value of its own, [External]);
    - [http_RoundTrip], the base transport's own [RoundTrip]. *)
Class HTTPCollaborator `{TLS : TLSCollaborator} : Type := {
  CanonicalHeaderKey : string -> string;
  CanonicalHeaderKey_case :
    forall k, toLower (CanonicalHeaderKey k) = toLower k;
  http2_enable_error : http_Transport -> option string;
  Response : Type;
  http_RoundTrip : http_Transport -> Header -> Response + error;
}.

(** What the package uses of the Go runtime and [math/rand/v2]: the order in
    which [range] visits a map (some enumeration of its entries), and the
    random source behind [rand.Shuffle], whose draw [uint64n r n] lies below
    [n]. *)
Class GoRuntime : Type := {
  rangeOrder : Header -> list (string * slice);
  rangeOrder_perm : forall h, rangeOrder h ≡ₚ map_to_list h;
  rng : Type;
  uint64n : rng -> nat -> nat * rng;
  uint64n_lt : forall r n, (0 < n)%nat -> (fst (uint64n r n) < n)%nat;
}.

Section Headers.

Context `{HTTP : HTTPCollaborator}.

(** [h[key]]: the nil slice when the key is absent. *)
Definition index (h : Header) (key : string) : slice :=
  match h !! key with
  | Some v => v
  | None => None
  end.

(** [Header.Get]: the first value under the canonical name, or [""]. *)
Definition Header_Get (h : Header) (key : string) : string :=
  match index h (CanonicalHeaderKey key) with
  | Some (v :: _) => v
  | _ => ""
  end.

(** [Header.Set]: replace the values under the canonical name. *)
Definition Header_Set (h : Header) (key value : string) : Header :=
  <[CanonicalHeaderKey key := Some [value]]> h.

End Headers.

(** ** GREASE client-hint brand list *)

(** [strings.Join]. *)
Fixpoint Join (elems : list string) (sep : string) : string :=
  match elems with
  | [] => ""
  | [e] => e
  | e :: rest => e +:+ sep +:+ Join rest sep
  end.

(** One entry ["Brand";v="Major"] of the list (34 is the double quote). *)
Definition brandEntry (bv : string * string) : string :=
  let q := String (ascii_of_nat 34) EmptyString in
  q +:+ fst bv +:+ q +:+ ";v=" +:+ q +:+ snd bv +:+ q.

(** Modelled from the spec: the tables of the GREASE algorithm behind
    [clientHintUA], which section 4.4 refers to (the published Chromium
    algorithm) without spelling them out: the placeholder (brand, version)
    and the order, both chosen from the seed; an order is an arrangement of
    the three positions. *)
Class GreaseTables : Type := {
  greaseBrand : Z -> string * string;
  greaseOrder : Z -> list nat;
  greaseOrder_perm : forall seed, greaseOrder seed ≡ₚ [0; 1; 2]%nat;
}.

Section Grease.

Context `{GT : GreaseTables}.

(** The three (brand, major version) tuples, in their initial order. *)
Definition brandVersionList (brand : Brand) (majorStr : string) (majorNum : Z)
  : list (string * string) :=
  [greaseBrand majorNum; ("Chromium", majorStr); (brand, majorStr)].

(** The tuples arranged by an order as the published algorithm arranges
    them: in a list of as many default entries, tuple [i] is written to
    position [order[i]]. *)
Definition permuteBy (order : list nat) (l : list (string * string))
  : list (string * string) :=
  foldl (fun acc entry => <[entry.1 := entry.2]> acc)
        (replicate (length l) ("", "")) (zip order l).

(** Modelled from the spec: [clientHintUA], which [chromiumBuildHeaders]
    calls and whose source file is not among the sources. Section 4.4: build
    an ordered list of (brand, majorVersion) tuples, permute it
    deterministically from a version-derived seed, join the entries as
    ["Brand";v="Major"], comma-separated. *)
Definition clientHintUA (brand : Brand) (majorStr : string) (majorNum : Z)
  : string :=
  let seed := majorNum in
  Join (brandEntry <$> permuteBy (greaseOrder seed)
                         (brandVersionList brand majorStr majorNum)) ", ".

End Grease.

(** ** Fingerprint profile registries *)

Section Registries.

Context `{HTTP : HTTPCollaborator} `{GT : GreaseTables}.

(** *** Chromium *)

Definition chromiumTLSHelloID (majorNum : Z) : ClientHelloID :=
  if majorNum <? 102 then HelloChrome_100
  else if majorNum <? 106 then HelloChrome_102
  else if majorNum <? 112 then HelloChrome_106_Shuffle
  else if majorNum <? 114 then HelloChrome_112_PSK_Shuf
  else if majorNum <? 115 then HelloChrome_114_Padding_PSK_Shuf
  else if majorNum <? 120 then HelloChrome_115_PQ
  else if majorNum <? 131 then HelloChrome_120
  else if majorNum <? 133 then HelloChrome_131
  else HelloChrome_133.

Definition chromiumHTTP2Options (majorNum : Z) : HTTP2Options :=
  let opts :=
    {| Settings := [];
       PseudoHeaderOrder := [":method"; ":authority"; ":scheme"; ":path"];
       MaxHeaderListSize := 262144;
       InitialWindowSize := 6291456;
       HeaderTableSize := 65536;
       ConnectionFlow := 0;
       HeaderPriority := None |} in
  if majorNum <? 107 then
    {| Settings :=
         [ {| ID := SettingHeaderTableSize; Val := 65536 |};
           {| ID := SettingMaxConcurrentStreams; Val := 1000 |};
           {| ID := SettingInitialWindowSize; Val := 6291456 |};
           {| ID := SettingMaxHeaderListSize; Val := 100000 |} ];
       PseudoHeaderOrder := PseudoHeaderOrder opts;
       MaxHeaderListSize := 100000;
       InitialWindowSize := InitialWindowSize opts;
       HeaderTableSize := HeaderTableSize opts;
       ConnectionFlow := ConnectionFlow opts;
       HeaderPriority := HeaderPriority opts |}
  else if majorNum <? 120 then
    {| Settings :=
         [ {| ID := SettingHeaderTableSize; Val := 65536 |};
           {| ID := SettingEnablePush; Val := 0 |};
           {| ID := SettingMaxConcurrentStreams; Val := 1000 |};
           {| ID := SettingInitialWindowSize; Val := 6291456 |};
           {| ID := SettingMaxHeaderListSize; Val := 262144 |} ];
       PseudoHeaderOrder := PseudoHeaderOrder opts;
       MaxHeaderListSize := MaxHeaderListSize opts;
       InitialWindowSize := InitialWindowSize opts;
       HeaderTableSize := HeaderTableSize opts;
       ConnectionFlow := ConnectionFlow opts;
       HeaderPriority := HeaderPriority opts |}
  else
    {| Settings :=
         [ {| ID := SettingHeaderTableSize; Val := 65536 |};
           {| ID := SettingEnablePush; Val := 0 |};
           {| ID := SettingInitialWindowSize; Val := 6291456 |};
           {| ID := SettingMaxHeaderListSize; Val := 262144 |} ];
       PseudoHeaderOrder := PseudoHeaderOrder opts;
       MaxHeaderListSize := MaxHeaderListSize opts;
       InitialWindowSize := InitialWindowSize opts;
       HeaderTableSize := HeaderTableSize opts;
       ConnectionFlow := ConnectionFlow opts;
       HeaderPriority := HeaderPriority opts |}.

Definition chromiumBuildHeaders
  (brand : Brand) (version majorStr : string) (majorNum : Z)
  : Platform -> Header + error :=
  fun p =>
    let build (uaPlatform hintPlatform : string) : Header + error :=
      let ua :=
        "Mozilla/5.0 (" +:+ uaPlatform +:+
        ") AppleWebKit/537.36 (KHTML, like Gecko) Chrome/" +:+ version +:+
        " Safari/537.36" in
      let ua :=
        if bool_decide (brand = BrandEdge) then ua +:+ " Edg/" +:+ version
        else ua in
      let h : Header := ∅ in
      let h := Header_Set h "user-agent" ua in
      let h := Header_Set h "sec-ch-ua" (clientHintUA brand majorStr majorNum) in
      let h := Header_Set h "sec-ch-ua-mobile" "?0" in
      let q := String (ascii_of_nat 34) EmptyString in
      let h := Header_Set h "sec-ch-ua-platform" (q +:+ hintPlatform +:+ q) in
      inl h in
    if bool_decide (p = PlatformWindows) then
      build "Windows NT 10.0; Win64; x64" "Windows"
    else if bool_decide (p = PlatformMac) then
      build "Macintosh; Intel Mac OS X 10_15_7" "macOS"
    else if bool_decide (p = PlatformLinux) then
      build "X11; Linux x86_64" "Linux"
    else
      inr (Errorf "chromium on %s: %w" [p] (Sentinel ErrUnsupportedPlatform)).

Definition Chromium (brand : Brand) (version : string) : ClientSpec + error :=
  match parseMajorVersion version with
  | inr err => inr err
  | inl (majorStr, majorNum) =>
      if majorNum <? 100 then
        inr (Errorf "chromium %s: %w" [version] (Sentinel ErrUnsupportedVersion))
      else
        let helloID := chromiumTLSHelloID majorNum in
        match validateTLSHelloID helloID with
        | Some err => inr (Errorf "chromium %s: %w" [version] err)
        | None =>
            inl {| version := version;
                   http2Options := chromiumHTTP2Options majorNum;
                   tlsSpecFn := fun _ => inl (newTLSSpecFunc helloID);
                   buildHeaders :=
                     chromiumBuildHeaders brand version majorStr majorNum |}
        end
  end.

(** *** Safari *)

Definition safariTLSSpecFn (p : Platform) : TLSSpecFunc + error :=
  if bool_decide (p = PlatformIOS) then inl (newTLSSpecFunc HelloIOS_14)
  else if bool_decide (p = PlatformMac) || bool_decide (p = PlatformIPadOS) then
    inl (newTLSSpecFunc HelloSafari_16_0)
  else inr (Errorf "safari on %s: %w" [p] (Sentinel ErrUnsupportedPlatform)).

Definition safariHTTP2Options : HTTP2Options :=
  {| PseudoHeaderOrder := [":method"; ":scheme"; ":path"; ":authority"];
     Settings :=
       [ {| ID := SettingHeaderTableSize; Val := 4096 |};
         {| ID := SettingEnablePush; Val := 0 |};
         {| ID := SettingMaxConcurrentStreams; Val := 100 |};
         {| ID := SettingInitialWindowSize; Val := 2097152 |};
         {| ID := SettingMaxFrameSize; Val := 16384 |};
         {| ID := settingEnableConnectProtocol; Val := 1 |} ];
     MaxHeaderListSize := 0;
     InitialWindowSize := 2097152;
     HeaderTableSize := 4096;
     ConnectionFlow := 10485760;
     HeaderPriority := None |}.

Definition safariBuildHeaders (version : string) : Platform -> Header + error :=
  fun p =>
    let finish (ua : string) : Header + error :=
      let h : Header := ∅ in
      inl (Header_Set h "user-agent" ua) in
    if bool_decide (p = PlatformMac) then
      finish ("Mozilla/5.0 (Macintosh; Intel Mac OS X 10_15_7) AppleWebKit/605.1.15 (KHTML, like Gecko) Version/"
              +:+ version +:+ " Safari/605.1.15")
    else if bool_decide (p = PlatformIOS) then
      let iosVer := strings.ReplaceAll_dot_underscore version in
      finish ("Mozilla/5.0 (iPhone; CPU iPhone OS " +:+ iosVer +:+
              " like Mac OS X) AppleWebKit/605.1.15 (KHTML, like Gecko) Version/"
              +:+ version +:+ " Mobile/15E148 Safari/604.1")
    else if bool_decide (p = PlatformIPadOS) then
      let iosVer := strings.ReplaceAll_dot_underscore version in
      finish ("Mozilla/5.0 (iPad; CPU OS " +:+ iosVer +:+
              " like Mac OS X) AppleWebKit/605.1.15 (KHTML, like Gecko) Version/"
              +:+ version +:+ " Mobile/15E148 Safari/604.1")
    else
      inr (Errorf "safari on %s: %w" [p] (Sentinel ErrUnsupportedPlatform)).

(** The loop that validates both platform-specific hello identifiers. *)
Fixpoint validateAll (ids : list ClientHelloID) : option error :=
  match ids with
  | [] => None
  | id :: rest =>
      match validateTLSHelloID id with
      | Some err => Some (Errorf "safari: %w" [] err)
      | None => validateAll rest
      end
  end.

Definition Safari (version : string) : ClientSpec + error :=
  match parseMajorVersion version with
  | inr err => inr err
  | inl (_, majorNum) =>
      if majorNum <? 16 then
        inr (Errorf "safari %s: %w" [version] (Sentinel ErrUnsupportedVersion))
      else
        match validateAll [HelloSafari_16_0; HelloIOS_14] with
        | Some err => inr err
        | None =>
            inl {| version := version;
                   http2Options := safariHTTP2Options;
                   tlsSpecFn := safariTLSSpecFn;
                   buildHeaders := safariBuildHeaders version |}
        end
  end.

(** *** Firefox *)

Definition firefoxTLSHelloID (majorNum : Z) : ClientHelloID :=
  if majorNum <? 56 then HelloFirefox_55
  else if majorNum <? 63 then HelloFirefox_56
  else if majorNum <? 65 then HelloFirefox_63
  else if majorNum <? 99 then HelloFirefox_65
  else if majorNum <? 102 then HelloFirefox_99
  else if majorNum <? 105 then HelloFirefox_102
  else if majorNum <? 120 then HelloFirefox_105
  else HelloFirefox_120.

Definition firefoxHTTP2Options : HTTP2Options :=
  {| PseudoHeaderOrder := [":method"; ":path"; ":authority"; ":scheme"];
     Settings :=
       [ {| ID := SettingHeaderTableSize; Val := 65536 |};
         {| ID := SettingInitialWindowSize; Val := 131072 |};
         {| ID := SettingMaxFrameSize; Val := 16384 |} ];
     MaxHeaderListSize := 0;
     InitialWindowSize := 131072;
     HeaderTableSize := 65536;
     ConnectionFlow := 12517377;
     HeaderPriority :=
       Some {| StreamDep := 13; Exclusive := false; Weight := 41 |} |}.

Definition firefoxBuildHeaders (version : string) : Platform -> Header + error :=
  fun p =>
    let build (uaPlatform : string) : Header + error :=
      let ua :=
        "Mozilla/5.0 (" +:+ uaPlatform +:+ "; rv:" +:+ version +:+
        ") Gecko/20100101 Firefox/" +:+ version in
      let h : Header := ∅ in
      inl (Header_Set h "user-agent" ua) in
    if bool_decide (p = PlatformWindows) then build "Windows NT 10.0; Win64; x64"
    else if bool_decide (p = PlatformMac) then build "Macintosh; Intel Mac OS X 10.15"
    else if bool_decide (p = PlatformLinux) then build "X11; Linux x86_64"
    else inr (Errorf "firefox on %s: %w" [p] (Sentinel ErrUnsupportedPlatform)).

Definition Firefox (version : string) : ClientSpec + error :=
  match parseMajorVersion version with
  | inr err => inr err
  | inl (_, majorNum) =>
      if majorNum <? 55 then
        inr (Errorf "firefox %s: %w" [version] (Sentinel ErrUnsupportedVersion))
      else
        let helloID := firefoxTLSHelloID majorNum in
        match validateTLSHelloID helloID with
        | Some err => inr (Errorf "firefox %s: %w" [version] err)
        | None =>
            inl {| version := version;
                   http2Options := firefoxHTTP2Options;
                   tlsSpecFn := fun _ => inl (newTLSSpecFunc helloID);
                   buildHeaders := firefoxBuildHeaders version |}
        end
  end.

End Registries.

(** ** ClientSpec application and the transport *)

Section Transport.

Context `{HTTP : HTTPCollaborator} `{RT : GoRuntime}.

Definition with_GetTlsClientHelloSpec (t : http_Transport) (f : TLSSpecFunc)
  : http_Transport :=
  {| GetTlsClientHelloSpec := Some f;
     h2 := h2 t;
     ProxyFromEnvironment := ProxyFromEnvironment t;
     DialTimeout := DialTimeout t;
     DialKeepAlive := DialKeepAlive t;
     ForceAttemptHTTP2 := ForceAttemptHTTP2 t;
     MaxIdleConns := MaxIdleConns t;
     IdleConnTimeout := IdleConnTimeout t;
     TLSHandshakeTimeout := TLSHandshakeTimeout t;
     ExpectContinueTimeout := ExpectContinueTimeout t |}.

Definition with_h2 (t : http_Transport) (t2 : http2_Transport) : http_Transport :=
  {| GetTlsClientHelloSpec := GetTlsClientHelloSpec t;
     h2 := Some t2;
     ProxyFromEnvironment := ProxyFromEnvironment t;
     DialTimeout := DialTimeout t;
     DialKeepAlive := DialKeepAlive t;
     ForceAttemptHTTP2 := ForceAttemptHTTP2 t;
     MaxIdleConns := MaxIdleConns t;
     IdleConnTimeout := IdleConnTimeout t;
     TLSHandshakeTimeout := TLSHandshakeTimeout t;
     ExpectContinueTimeout := ExpectContinueTimeout t |}.

(** [http2.ConfigureTransports(t)]: on success a fresh, zero-valued HTTP/2
    transport that is registered on [t]. *)
Definition http2_ConfigureTransports (t : http_Transport)
  : http2_Transport + error :=
  match http2_enable_error t with
  | Some msg => inr (Sentinel (External msg))
  | None => inl http2_Transport_zero
  end.

(** The profile fields copied onto the HTTP/2 transport. *)
Definition applyHTTP2Options (o : HTTP2Options) (t2 : http2_Transport)
  : http2_Transport :=
  {| t2_Settings := Settings o;
     t2_MaxHeaderListSize := MaxHeaderListSize o;
     t2_InitialWindowSize := InitialWindowSize o;
     t2_HeaderTableSize := HeaderTableSize o;
     t2_TransportConnFlow :=
       if 0 <? ConnectionFlow o then ConnectionFlow o
       else t2_TransportConnFlow t2;
     t2_HeaderPriority :=
       match HeaderPriority o with
       | Some p => Some p
       | None => t2_HeaderPriority t2
       end |}.

(** [ConfigureTransport] modifies [t] in place: the result is the state of
    [t] when the call returns, and the error ([None] is [nil]). *)
Definition ConfigureTransport
  (c : ClientSpec) (t : http_Transport) (platform : Platform)
  : http_Transport * option error :=
  match tlsSpecFn c platform with
  | inr err => (t, Some err)
  | inl specFn =>
      let t := with_GetTlsClientHelloSpec t specFn in
      match http2_ConfigureTransports t with
      | inr err => (t, Some (Errorf "enabling http2 support: %w" [] err))
      | inl t2 => (with_h2 t (applyHTTP2Options (http2Options c) t2), None)
      end
  end.

Record transportConfig : Type := { baseTransport : option http_Transport }.

Definition TransportOption : Type := transportConfig -> transportConfig.

(** The argument is a pointer: [None] is [nil]. *)
Definition WithBaseTransport (t : option http_Transport) : TransportOption :=
  fun _ => {| baseTransport := t |}.

Definition defaultTransport : http_Transport :=
  {| GetTlsClientHelloSpec := None;
     h2 := None;
     ProxyFromEnvironment := true;
     DialTimeout := 30;
     DialKeepAlive := 30;
     ForceAttemptHTTP2 := true;
     MaxIdleConns := 100;
     IdleConnTimeout := 90;
     TLSHandshakeTimeout := 10;
     ExpectContinueTimeout := 1 |}.

Record Transport : Type := {
  transport : http_Transport;
  pseudoHeaderOrder : slice;
  defaultHeaders : Header;
}.

(** [NewTransport] returns, next to its result, the state in which it leaves
    the base transport (the caller's own when an option supplied it). *)
Definition NewTransport
  (spec : ClientSpec) (platform : Platform) (opts : list TransportOption)
  : http_Transport * (Transport + error) :=
  let cfg := foldl (fun cfg opt => opt cfg) {| baseTransport := None |} opts in
  let base :=
    match baseTransport cfg with
    | Some t => t
    | None => defaultTransport
    end in
  match ConfigureTransport spec base platform with
  | (base, Some err) => (base, inr (Errorf "configuring transport: %w" [] err))
  | (base, None) =>
      match buildHeaders spec platform with
      | inr err => (base, inr err)
      | inl headers =>
          (base,
           inl {| transport := base;
                  pseudoHeaderOrder :=
                    Some (PseudoHeaderOrder (http2Options spec));
                  defaultHeaders := headers |})
      end
  end.

(** One iteration of the loop over the default headers; [len(values) > 0]
    with [values[0]] is the match on a slice that has a first element. *)
Definition injectDefault (header : Header) (kv : string * slice) : Header :=
  let '(key, values) := kv in
  if negb (bool_decide (Header_Get header key = "")) then header
  else
    match values with
    | Some (v0 :: _) => Header_Set header key v0
    | _ => header
    end.

Definition injectDefaults (defaults header : Header) : Header :=
  foldl injectDefault header (rangeOrder defaults).

(** [keys[i], keys[j] = keys[j], keys[i]]; an index out of range panics in
    Go: [None]. *)
Definition swap (keys : list string) (i j : nat) : option (list string) :=
  match keys !! i, keys !! j with
  | Some ki, Some kj => Some (<[i := kj]> (<[j := ki]> keys))
  | _, _ => None
  end.

(** [rand.Shuffle]: [for i := n - 1; i > 0; i-- { swap(i, uint64n(i+1)) }]. *)
Fixpoint shuffleLoop (i : nat) (keys : list string) (r : rng)
  : option (list string * rng) :=
  match i with
  | O => Some (keys, r)
  | S i' =>
      let '(j, r') := uint64n r (S i) in
      match swap keys i j with
      | Some keys' => shuffleLoop i' keys' r'
      | None => None
      end
  end.

Definition Shuffle (keys : list string) (r : rng) : option (list string * rng) :=
  shuffleLoop (length keys - 1) keys r.

(** The header mutations of [RoundTrip], in its three steps. *)
Definition pinPseudoHeaderOrder (t : Transport) (header : Header) : Header :=
  <[PHeaderOrderKey := pseudoHeaderOrder t]> header.

Definition installHeaderOrder (header : Header) (r : rng)
  : option (Header * rng) :=
  match index header HeaderOrderKey with
  | None =>
      let keys := (rangeOrder header).*1 in
      match Shuffle keys r with
      | Some (keys, r') => Some (<[HeaderOrderKey := Some keys]> header, r')
      | None => None
      end
  | Some _ => Some (header, r)
  end.

(** [RoundTrip] mutates the request's header map in place and delegates.
    The argument is [req.Header], [None] being the nil map, to which the
    first assignment panics. The result is the header map as the base
    transport receives it, the state of the random source, and the base
    transport's answer; [None] is a panic. *)
Definition RoundTrip (t : Transport) (reqHeader : option Header) (r : rng)
  : option (Header * rng * (Response + error)) :=
  match reqHeader with
  | None => None
  | Some header =>
      let header := pinPseudoHeaderOrder t header in
      let header := injectDefaults (defaultHeaders t) header in
      match installHeaderOrder header r with
      | Some (header, r') =>
          Some (header, r', http_RoundTrip (transport t) header)
      | None => None
      end
  end.

End Transport.

(** ** Statements of the specification *)

(** The selection rule of the specification over a table of
    (exclusive upper bound, profile) pairs: the first entry whose bound
    exceeds the major version, else the newest entry. *)
Definition spec_selectProfile
  (table : list (Z * ClientHelloID)) (newest : ClientHelloID) (major : Z)
  : ClientHelloID :=
  match find (fun entry => major <? fst entry) table with
  | Some entry => snd entry
  | None => newest
  end.

(** The Chromium table of the specification, oldest entry first: the
    profiles 100, 102, 106, 112, 114, 115, 120, 131 of section 6, each with
    the version of the next profile as its exclusive upper bound; 133 is
    the newest entry. *)
Definition spec_chromiumTLSTable : list (Z * ClientHelloID) :=
  [ (102, HelloChrome_100);
    (106, HelloChrome_102);
    (112, HelloChrome_106_Shuffle);
    (114, HelloChrome_112_PSK_Shuf);
    (115, HelloChrome_114_Padding_PSK_Shuf);
    (120, HelloChrome_115_PQ);
    (131, HelloChrome_120);
    (133, HelloChrome_131) ].

(** A non-empty run of decimal digits: the numerals of the non-negative
    integers. *)
Definition isDecimal (l : list ascii) : bool :=
  match l with
  | [] => false
  | _ => forallb strconv.isDigit l
  end.

Definition isNonNegativeInteger (s : string) : bool :=
  isDecimal (list_ascii_of_string s).

(** A run of decimal digits behind at most one sign. *)
Definition isSignedDecimal (s : string) : bool :=
  match list_ascii_of_string s with
  | [] => false
  | c :: rest =>
      if bool_decide (c = "+"%char) || bool_decide (c = "-"%char)
      then isDecimal rest
      else isDecimal (c :: rest)
  end.

(** A constructor's result is a parse error, and no spec. *)
Definition failsWithParseError `{TLS : TLSCollaborator}
  (result : ClientSpec + error) : Prop :=
  exists err, result = inr err /\ isParseError err = true.

(** A result is an error that wraps the given sentinel. *)
Definition failsWith {A : Type} (result : A + error) (target : sentinel) : Prop :=
  exists err, result = inr err /\ errors_Is err target = true.

(** The platforms on which the Chromium and Firefox header builders fail. *)
Definition notDesktop (p : Platform) : Prop :=
  p <> PlatformWindows /\ p <> PlatformMac /\ p <> PlatformLinux.

(** The value that [Header.Get] reads under an already canonical name. *)
Definition firstValue (h : Header) (k : string) : string :=
  match h !! k with
  | Some (Some (v :: _)) => v
  | _ => ""
  end.

(** [k] holds the first value of one of the defaults [l] named [k]. *)
Definition filledFrom `{HTTP : HTTPCollaborator}
  (l : list (string * slice)) (h : Header) (k : string)
  : Prop :=
  exists d v rest,
    (d, Some (v :: rest)) ∈ l /\ CanonicalHeaderKey d = k /\
    h !! k = Some (Some [v]).

(** No default header is named like the header-order annotation. *)
Definition noOrderKey `{HTTP : HTTPCollaborator} (defaults : Header) : Prop :=
  forall d, is_Some (defaults !! d) -> CanonicalHeaderKey d <> HeaderOrderKey.

(** ** Reference collaborators

    Concrete collaborators on which the model can be run: a TLS library that
    resolves every identifier, the header canonicalisation of
    [net/textproto], an HTTP/2 layer that refuses a second registration, a
    fixed enumeration of maps with a counter as random source, and the
    tables of the published Chromium GREASE algorithm. *)

Module Reference.

#[export] Instance tls : TLSCollaborator :=
  {| ClientHelloSpec := ClientHelloID;
     UTLSIdToSpec := fun id => (id, None);
     idClient := fun id =>
       match id with
       | HelloChrome_100 | HelloChrome_102 | HelloChrome_106_Shuffle
       | HelloChrome_112_PSK_Shuf | HelloChrome_114_Padding_PSK_Shuf
       | HelloChrome_115_PQ | HelloChrome_120 | HelloChrome_131
       | HelloChrome_133 => "Chrome"
       | HelloSafari_16_0 => "Safari"
       | HelloIOS_14 => "iOS"
       | _ => "Firefox"
       end;
     idVersion := fun id =>
       match id with
       | HelloChrome_100 => "100"
       | HelloChrome_102 | HelloFirefox_102 => "102"
       | HelloChrome_106_Shuffle => "106"
       | HelloChrome_112_PSK_Shuf => "112_PSK"
       | HelloChrome_114_Padding_PSK_Shuf => "114_PSK"
       | HelloChrome_115_PQ => "115_PQ"
       | HelloChrome_120 | HelloFirefox_120 => "120"
       | HelloChrome_131 => "131"
       | HelloChrome_133 => "133"
       | HelloFirefox_55 => "55"
       | HelloFirefox_56 => "56"
       | HelloFirefox_63 => "63"
       | HelloFirefox_65 => "65"
       | HelloFirefox_99 => "99"
       | HelloFirefox_105 => "105"
       | HelloSafari_16_0 => "16.0"
       | HelloIOS_14 => "14"
       end |}.

Definition validHeaderFieldByte (c : ascii) : bool :=
  let n := strconv.byteZ c in
  ((48 <=? n) && (n <=? 57)) || ((65 <=? n) && (n <=? 90)) ||
  ((97 <=? n) && (n <=? 122)) ||
  bool_decide (c ∈ list_ascii_of_string "!#$%&'*+-.^_`|~").

Definition canonByte (upper : bool) (c : ascii) : ascii :=
  let n := strconv.byteZ c in
  if upper && (97 <=? n) && (n <=? 122) then ascii_of_N (Z.to_N (n - 32))
  else if negb upper && (65 <=? n) && (n <=? 90) then ascii_of_N (Z.to_N (n + 32))
  else c.

Fixpoint canonLoop (upper : bool) (s : string) : string :=
  match s with
  | EmptyString => EmptyString
  | String c rest =>
      let c' := canonByte upper c in
      String c' (canonLoop (bool_decide (c' = "-"%char)) rest)
  end.

Definition CanonicalMIMEHeaderKey (s : string) : string :=
  if forallb validHeaderFieldByte (list_ascii_of_string s)
  then canonLoop true s else s.

Lemma canonByte_case upper c : toLowerByte (canonByte upper c) = toLowerByte c.
Proof.
  destruct upper;
    destruct c as [[] [] [] [] [] [] [] []]; vm_compute; reflexivity.
Qed.

Lemma canonLoop_case s : forall upper, toLower (canonLoop upper s) = toLower s.
Proof.
  induction s as [|c rest IH]; intros upper; [reflexivity|].
  cbn [canonLoop toLower]. by rewrite canonByte_case, IH.
Qed.

Lemma CanonicalMIMEHeaderKey_case k :
  toLower (CanonicalMIMEHeaderKey k) = toLower k.
Proof.
  unfold CanonicalMIMEHeaderKey.
  destruct (forallb _ _); [apply canonLoop_case | reflexivity].
Qed.

#[export] Instance http : HTTPCollaborator :=
  {| CanonicalHeaderKey := CanonicalMIMEHeaderKey;
     CanonicalHeaderKey_case := CanonicalMIMEHeaderKey_case;
     http2_enable_error := fun t =>
       match h2 t with
       | Some _ => Some "protocol https already registered"
       | None => None
       end;
     Response := unit;
     http_RoundTrip := fun _ _ => inl tt |}.

Lemma counter_lt (r n : nat) : (0 < n)%nat -> (fst (r mod n, S r) < n)%nat.
Proof. intros Hn. cbn. apply Nat.mod_upper_bound. lia. Qed.

#[export] Instance runtime : GoRuntime :=
  {| rangeOrder := fun h => map_to_list h;
     rangeOrder_perm := fun h => reflexivity (map_to_list h);
     rng := nat;
     uint64n := fun r n => ((r mod n)%nat, S r);
     uint64n_lt := counter_lt |}.

Definition greaseyChars : list string :=
  [" "; "("; ":"; "-"; "."; "/"; ")"; ";"; "="; "?"; "_"].
Definition greasedVersions : list string := ["8"; "99"; "24"].
Definition orders : list (list nat) :=
  [[0; 1; 2]; [0; 2; 1]; [1; 0; 2]; [1; 2; 0]; [2; 0; 1]; [2; 1; 0]]%nat.

Definition chromiumGreaseBrand (seed : Z) : string * string :=
  ("Not" +:+ default "" (greaseyChars !! Z.to_nat (seed mod 11)) +:+ "A" +:+
   default "" (greaseyChars !! Z.to_nat ((seed + 1) mod 11)) +:+ "Brand",
   default "" (greasedVersions !! Z.to_nat (seed mod 3))).

Definition chromiumGreaseOrder (seed : Z) : list nat :=
  default [0; 1; 2]%nat (orders !! Z.to_nat (seed mod 6)).

Lemma chromiumGreaseOrder_perm seed :
  chromiumGreaseOrder seed ≡ₚ [0; 1; 2]%nat.
Proof.
  unfold chromiumGreaseOrder.
  assert (Hall : Forall (fun o => o ≡ₚ [0; 1; 2]%nat) orders).
  { unfold orders. repeat constructor; by apply (bool_decide_unpack _). }
  destruct (orders !! Z.to_nat (seed mod 6)) as [o|] eqn:Ho; [|reflexivity].
  cbn [default]. eapply Forall_lookup_1 in Hall; eauto.
Qed.

#[export] Instance grease : GreaseTables :=
  {| greaseBrand := chromiumGreaseBrand;
     greaseOrder := chromiumGreaseOrder;
     greaseOrder_perm := chromiumGreaseOrder_perm |}.

(** A transport with the Firefox defaults for linux, a request on which the
    caller set user-agent, and one on which the caller did not. *)
Definition sampleTransport : Transport :=
  {| transport := defaultTransport;
     pseudoHeaderOrder := Some [":method"; ":path"; ":authority"; ":scheme"];
     defaultHeaders :=
       Header_Set ∅ "user-agent"
         "Mozilla/5.0 (X11; Linux x86_64; rv:134.0) Gecko/20100101 Firefox/134.0" |}.

Definition sampleRequest : Header :=
  <["Accept" := Some ["text/html"]]> (<["User-Agent" := Some ["curl/8"]]> ∅).

Definition bareRequest : Header := <["Accept" := Some ["text/html"]]> ∅.



(** The header map that a run hands to the base transport. *)
Definition sentHeader (run : option (Header * nat * (unit + error)))
  : option Header :=
  match run with
  | Some (h, _, _) => Some h
  | None => None
  end.

End Reference.

(** Case analysis on every integer comparison of the goal. *)
Ltac ltb_cases :=
  repeat match goal with
         | |- context [?a <? ?b] => destruct (Z.ltb_spec a b)
         end.

(** ** The version parser and the registries *)

Example parseMajorVersion_137 :
  parseMajorVersion "137.0.0.0" = inl ("137", 137).
Proof. reflexivity. Qed.

Example parseMajorVersion_neg :
  parseMajorVersion "-5.0" = inl ("-5", -5).
Proof. reflexivity. Qed.

Example parseMajorVersion_empty :
  parseMajorVersion ".5" =
  inr (Errorf "parsing major version %q: %w" [""]
         (NumError "Atoi" "" (Sentinel ErrSyntax))).
Proof. reflexivity. Qed.

Example canonical_user_agent :
  Reference.CanonicalMIMEHeaderKey "user-agent" = "User-Agent".
Proof. reflexivity. Qed.

Section Properties.

Context `{HTTP : HTTPCollaborator} `{GT : GreaseTables}.

Lemma chromiumTLSHelloID_table (m : Z) :
  chromiumTLSHelloID m = spec_selectProfile spec_chromiumTLSTable HelloChrome_133 m.
Proof.
  unfold chromiumTLSHelloID, spec_selectProfile, spec_chromiumTLSTable.
  cbn [find fst snd].
  repeat (destruct (_ <? _); [reflexivity|]). reflexivity.
Qed.

Lemma chromiumTLSHelloID_newest (m : Z) :
  133 <= m -> chromiumTLSHelloID m = HelloChrome_133.
Proof.
  intros Hm. unfold chromiumTLSHelloID.
  ltb_cases; (reflexivity || lia).
Qed.

Lemma chromiumHTTP2Options_band120 (m : Z) :
  120 <= m -> chromiumHTTP2Options m = chromiumHTTP2Options 120.
Proof.
  intros Hm. unfold chromiumHTTP2Options.
  ltb_cases; (reflexivity || lia).
Qed.

(** C1: Chromium(Chrome, "137.0.0.0") resolves to the hello profile of the
    majors from 133 on and to the HTTP/2 band of the majors from 120 on, whose
    MaxHeaderListSize is 262144, and configuring a transport for windows
    installs both; for every major version from 100 on the hello profile is
    the first entry of the table whose exclusive upper bound exceeds the
    major version, and the newest entry when no bound does. *)
Theorem C1_chromium_profile_selection :
  Resolvable HelloChrome_133 ->
  (exists c,
      Chromium BrandChrome "137.0.0.0" = inl c /\
      tlsSpecFn c PlatformWindows = inl (newTLSSpecFunc HelloChrome_133) /\
      (forall m, 133 <= m -> chromiumTLSHelloID m = HelloChrome_133) /\
      (forall m, 120 <= m -> chromiumHTTP2Options m = http2Options c) /\
      MaxHeaderListSize (http2Options c) = 262144 /\
      Settings (http2Options c) =
        [ {| ID := SettingHeaderTableSize; Val := 65536 |};
          {| ID := SettingEnablePush; Val := 0 |};
          {| ID := SettingInitialWindowSize; Val := 6291456 |};
          {| ID := SettingMaxHeaderListSize; Val := 262144 |} ] /\
      (forall t,
          http2_enable_error
            (with_GetTlsClientHelloSpec t (newTLSSpecFunc HelloChrome_133)) = None ->
          exists t' t2,
            ConfigureTransport c t PlatformWindows = (t', None) /\
            GetTlsClientHelloSpec t' = Some (newTLSSpecFunc HelloChrome_133) /\
            h2 t' = Some t2 /\
            t2_MaxHeaderListSize t2 = 262144 /\
            t2_Settings t2 = Settings (chromiumHTTP2Options 120))) /\
  (forall m, 100 <= m ->
      chromiumTLSHelloID m =
        spec_selectProfile spec_chromiumTLSTable HelloChrome_133 m).
Proof.
  intros Hres. split; [|intros m _; apply chromiumTLSHelloID_table].
  unfold Chromium. rewrite parseMajorVersion_137.
  change (137 <? 100) with false. cbn iota.
  change (chromiumTLSHelloID 137) with HelloChrome_133.
  unfold validateTLSHelloID. rewrite Hres.
  eexists. split; [reflexivity|]. cbn [tlsSpecFn http2Options].
  split; [reflexivity|].
  split; [apply chromiumTLSHelloID_newest|].
  split; [intros m Hm; by rewrite (chromiumHTTP2Options_band120 m Hm)|].
  split; [reflexivity|]. split; [reflexivity|].
  intros t Ht. unfold ConfigureTransport, http2_ConfigureTransports.
  cbn [tlsSpecFn http2Options]. rewrite Ht.
  eexists _, _. split; [reflexivity|]. cbn. done.
Qed.

End Properties.

Lemma C1_witness :
  exists c, Chromium (HTTP := Reference.http) (GT := Reference.grease)
              BrandChrome "137.0.0.0" = inl c /\
            MaxHeaderListSize (http2Options c) = 262144.
Proof.
  destruct (C1_chromium_profile_selection (HTTP := Reference.http)
              (GT := Reference.grease) eq_refl)
    as [(c & Hc & _ & _ & _ & Hm & _) _].
  exists c. split; [exact Hc | exact Hm].
Defined.

Section Constructors.

Context `{HTTP : HTTPCollaborator} `{GT : GreaseTables}.

(** *** The version parser rejects what is not a signed decimal *)

Lemma parseUintLoop_non_digit (l : list ascii) :
  forallb strconv.isDigit l = false ->
  forall n, exists e, strconv.parseUintLoop l n = inr e.
Proof.
  induction l as [|c rest IH]; intros Hl n; [discriminate|].
  cbn [forallb] in Hl. cbn [strconv.parseUintLoop].
  destruct (strconv.isDigit c); [|by eexists].
  destruct (_ <=? n); [by eexists|].
  cbn zeta. destruct (_ <? _); [by eexists|].
  apply IH. exact Hl.
Qed.

Lemma ParseUint_not_decimal (l : list ascii) :
  isDecimal l = false -> exists e, strconv.ParseUint l = inr e.
Proof.
  destruct l as [|c rest]; [by eexists|].
  intros Hl. apply parseUintLoop_non_digit. exact Hl.
Qed.

Lemma Atoi_not_signed_decimal (s : string) :
  isSignedDecimal s = false ->
  exists e, strconv.Atoi s = inr (NumError "Atoi" s (Sentinel e)).
Proof.
  unfold isSignedDecimal, strconv.Atoi, strconv.ParseInt.
  destruct (list_ascii_of_string s) as [|c rest]; [by eexists|].
  intros Hs. cbn zeta.
  assert (Hd : isDecimal
                 (if bool_decide (c = "+"%char) || bool_decide (c = "-"%char)
                  then rest else c :: rest) = false).
  { by destruct (_ || _). }
  destruct (ParseUint_not_decimal _ Hd) as [e He].
  rewrite He. by eexists.
Qed.

Lemma parseMajorVersion_not_signed_decimal (version : string) :
  isSignedDecimal (majorPrefix version) = false ->
  exists err, parseMajorVersion version = inr err /\ isParseError err = true.
Proof.
  intros Hs. unfold parseMajorVersion.
  destruct (Atoi_not_signed_decimal _ Hs) as [e He].
  rewrite He. by eexists.
Qed.

(** C5 (amended): for every version string whose leading component before
    the first '.' is not a run of decimal digits behind at most one sign
    (it is empty, a bare sign, or has a byte that is not a digit), each of
    the three constructors fails with a parse error and returns no spec. *)
Theorem C5_constructors_reject_non_numeric (version : string) :
  isSignedDecimal (majorPrefix version) = false ->
  (forall brand, failsWithParseError (Chromium brand version)) /\
  failsWithParseError (Safari version) /\
  failsWithParseError (Firefox version).
Proof.
  intros Hs.
  destruct (parseMajorVersion_not_signed_decimal version Hs) as (err & Hp & He).
  unfold failsWithParseError, Chromium, Safari, Firefox. rewrite Hp.
  repeat split; intros; by exists err.
Qed.

(** *** Version bounds *)

Lemma validateAll_safari :
  Resolvable HelloSafari_16_0 -> Resolvable HelloIOS_14 ->
  validateAll [HelloSafari_16_0; HelloIOS_14] = None.
Proof.
  unfold Resolvable, validateAll, validateTLSHelloID.
  by intros -> ->.
Qed.

(** C6: each constructor succeeds for a version whose major is the family
    minimum (Chromium 100, Safari 16, Firefox 55) and fails with an error
    wrapping ErrUnsupportedVersion for the major one below it. *)
Theorem C6_family_minimum :
  Resolvable HelloChrome_100 ->
  Resolvable HelloSafari_16_0 ->
  Resolvable HelloIOS_14 ->
  Resolvable HelloFirefox_55 ->
  (forall brand version majorStr,
      parseMajorVersion version = inl (majorStr, 100) ->
      exists c, Chromium brand version = inl c /\ Version c = version) /\
  (forall brand version majorStr,
      parseMajorVersion version = inl (majorStr, 99) ->
      failsWith (Chromium brand version) ErrUnsupportedVersion) /\
  (forall version majorStr,
      parseMajorVersion version = inl (majorStr, 16) ->
      exists c, Safari version = inl c /\ Version c = version) /\
  (forall version majorStr,
      parseMajorVersion version = inl (majorStr, 15) ->
      failsWith (Safari version) ErrUnsupportedVersion) /\
  (forall version majorStr,
      parseMajorVersion version = inl (majorStr, 55) ->
      exists c, Firefox version = inl c /\ Version c = version) /\
  (forall version majorStr,
      parseMajorVersion version = inl (majorStr, 54) ->
      failsWith (Firefox version) ErrUnsupportedVersion).
Proof.
  intros Hc Hs Hi Hf.
  repeat split; intros; unfold failsWith, Chromium, Safari, Firefox;
    match goal with H : parseMajorVersion _ = _ |- _ => rewrite H end;
    cbn iota beta.
  - change (100 <? 100) with false. cbn iota.
    change (chromiumTLSHelloID 100) with HelloChrome_100.
    unfold validateTLSHelloID. rewrite Hc. by eexists.
  - change (99 <? 100) with true. cbn iota. by eexists.
  - change (16 <? 16) with false. cbn iota.
    rewrite (validateAll_safari Hs Hi). by eexists.
  - change (15 <? 16) with true. cbn iota. by eexists.
  - change (55 <? 55) with false. cbn iota.
    change (firefoxTLSHelloID 55) with HelloFirefox_55.
    unfold validateTLSHelloID. rewrite Hf. by eexists.
  - change (54 <? 55) with true. cbn iota. by eexists.
Qed.

(** C7: every supported Firefox version resolves to the same HTTP/2 profile:
    SETTINGS header-table-size 65536, initial-window-size 131072 and
    max-frame-size 16384, in this order; connection flow control 12517377;
    pseudo-header order :method, :path, :authority, :scheme; header priority
    with stream dependency 13, not exclusive, wire weight 41, which is
    logical weight 42. *)
Theorem C7_firefox_http2_profile (version majorStr : string) (majorNum : Z) :
  parseMajorVersion version = inl (majorStr, majorNum) ->
  55 <= majorNum ->
  Resolvable (firefoxTLSHelloID majorNum) ->
  exists c,
    Firefox version = inl c /\
    Settings (HTTP2Opts c) =
      [ {| ID := SettingHeaderTableSize; Val := 65536 |};
        {| ID := SettingInitialWindowSize; Val := 131072 |};
        {| ID := SettingMaxFrameSize; Val := 16384 |} ] /\
    ConnectionFlow (HTTP2Opts c) = 12517377 /\
    ClientSpec_PseudoHeaderOrder c = [":method"; ":path"; ":authority"; ":scheme"] /\
    (exists p,
        HeaderPriority (HTTP2Opts c) = Some p /\
        StreamDep p = 13 /\ Exclusive p = false /\
        Weight p = 41 /\ Weight p + 1 = 42).
Proof.
  intros Hp Hmin Hres. unfold Firefox. rewrite Hp.
  destruct (Z.ltb_spec majorNum 55) as [?|_]; [lia|].
  cbn zeta. unfold validateTLSHelloID. rewrite Hres.
  eexists. split; [reflexivity|].
  cbn. repeat split. eexists. repeat split.
Qed.

End Constructors.

Section ConstructorsMore.

Context `{HTTP : HTTPCollaborator} `{GT : GreaseTables}.

(** A leading component that parses to a negative number is a version below
    every family minimum. *)
Lemma constructors_reject_negative (version majorStr : string) (majorNum : Z) :
  parseMajorVersion version = inl (majorStr, majorNum) ->
  majorNum < 0 ->
  (forall brand, failsWith (Chromium brand version) ErrUnsupportedVersion) /\
  failsWith (Safari version) ErrUnsupportedVersion /\
  failsWith (Firefox version) ErrUnsupportedVersion.
Proof.
  intros Hp Hneg. unfold failsWith, Chromium, Safari, Firefox. rewrite Hp.
  repeat split; intros; ltb_cases; try lia; by eexists.
Qed.

(** The names under which a header map holds values are, up to the case of
    letters, the names that were set. *)
Lemma Header_Set_empty_keys (key value k : string) :
  is_Some (Header_Set ∅ key value !! k) -> toLower k = toLower key.
Proof.
  unfold Header_Set. intros [v Hv].
  destruct (decide (CanonicalHeaderKey key = k)) as [<-|Hne].
  - apply CanonicalHeaderKey_case.
  - rewrite lookup_insert_ne in Hv by done. by rewrite lookup_empty in Hv.
Qed.

Lemma Header_Get_Set (h : Header) (key value : string) :
  Header_Get (Header_Set h key value) key = value.
Proof.
  unfold Header_Get, Header_Set, index. by rewrite lookup_insert_eq.
Qed.

(** C9: Safari("18.3") on platform mac builds a header set with exactly one
    header name, user-agent, whose value contains "Version/18.3" and the
    frozen OS-version token "10_15_7". *)
Theorem C9_safari_mac_headers :
  Resolvable HelloSafari_16_0 ->
  Resolvable HelloIOS_14 ->
  exists c h ua,
    Safari "18.3" = inl c /\
    buildHeaders c PlatformMac = inl h /\
    dom h = {[ CanonicalHeaderKey "user-agent" ]} /\
    (forall k, is_Some (h !! k) -> toLower k = "user-agent") /\
    h !! CanonicalHeaderKey "user-agent" = Some (Some [ua]) /\
    Header_Get h "user-agent" = ua /\
    strings.Contains ua "Version/18.3" = true /\
    strings.Contains ua "10_15_7" = true.
Proof.
  intros Hs Hi. unfold Safari.
  change (parseMajorVersion "18.3") with
    (inl ("18", 18) : (string * Z) + error).
  change (18 <? 16) with false. cbn iota beta.
  rewrite (validateAll_safari Hs Hi).
  eexists _, _, _. split; [reflexivity|].
  cbn [buildHeaders]. unfold safariBuildHeaders.
  rewrite (bool_decide_eq_true_2 (PlatformMac = PlatformMac)) by reflexivity.
  split; [reflexivity|].
  split; [unfold Header_Set; rewrite dom_insert_L, dom_empty_L; apply (right_id_L ∅ (∪))|].
  split; [intros k Hk; exact (Header_Set_empty_keys _ _ _ Hk)|].
  split; [unfold Header_Set; by rewrite lookup_insert_eq|].
  split; [apply Header_Get_Set|].
  split; by vm_compute.
Qed.

End ConstructorsMore.

(** *** The theorems at the reference collaborators *)

Lemma C5_witness :
  isSignedDecimal (majorPrefix "beta.1") = false /\
  failsWithParseError (Firefox (HTTP := Reference.http) "beta.1").
Proof.
  split; [reflexivity|].
  apply (C5_constructors_reject_non_numeric
           (HTTP := Reference.http) (GT := Reference.grease) "beta.1").
  reflexivity.
Defined.

(** C5, as stated, fails: the leading component of "-5.0" is not a
    non-negative integer, yet it parses, and the three constructors answer
    with ErrUnsupportedVersion, which is not a parse error. *)
Lemma C5_counterexample :
  isNonNegativeInteger (majorPrefix "-5.0") = false /\
  Chromium (HTTP := Reference.http) (GT := Reference.grease) BrandChrome "-5.0"
    = inr (Errorf "chromium %s: %w" ["-5.0"] (Sentinel ErrUnsupportedVersion)) /\
  Safari (HTTP := Reference.http) "-5.0"
    = inr (Errorf "safari %s: %w" ["-5.0"] (Sentinel ErrUnsupportedVersion)) /\
  Firefox (HTTP := Reference.http) "-5.0"
    = inr (Errorf "firefox %s: %w" ["-5.0"] (Sentinel ErrUnsupportedVersion)) /\
  isParseError
    (Errorf "chromium %s: %w" ["-5.0"] (Sentinel ErrUnsupportedVersion)) = false /\
  isParseError
    (Errorf "safari %s: %w" ["-5.0"] (Sentinel ErrUnsupportedVersion)) = false /\
  isParseError
    (Errorf "firefox %s: %w" ["-5.0"] (Sentinel ErrUnsupportedVersion)) = false.
Proof. repeat split. Qed.

Lemma C6_witness :
  (exists c, Chromium (HTTP := Reference.http) (GT := Reference.grease)
               BrandChrome "100.0.0.0" = inl c /\ Version c = "100.0.0.0") /\
  failsWith (Chromium (HTTP := Reference.http) (GT := Reference.grease)
               BrandChrome "99.0.0.0") ErrUnsupportedVersion /\
  (exists c, Safari (HTTP := Reference.http) "16.0" = inl c /\ Version c = "16.0") /\
  failsWith (Safari (HTTP := Reference.http) "15.6") ErrUnsupportedVersion /\
  (exists c, Firefox (HTTP := Reference.http) "55.0" = inl c /\ Version c = "55.0") /\
  failsWith (Firefox (HTTP := Reference.http) "54.0") ErrUnsupportedVersion.
Proof.
  destruct (C6_family_minimum (HTTP := Reference.http) (GT := Reference.grease)
              eq_refl eq_refl eq_refl eq_refl)
    as (H1 & H2 & H3 & H4 & H5 & H6).
  repeat split.
  - exact (H1 BrandChrome "100.0.0.0" "100" eq_refl).
  - exact (H2 BrandChrome "99.0.0.0" "99" eq_refl).
  - exact (H3 "16.0" "16" eq_refl).
  - exact (H4 "15.6" "15" eq_refl).
  - exact (H5 "55.0" "55" eq_refl).
  - exact (H6 "54.0" "54" eq_refl).
Defined.

Lemma C7_witness :
  exists c, Firefox (HTTP := Reference.http) "134.0" = inl c /\
            ConnectionFlow (HTTP2Opts c) = 12517377.
Proof.
  destruct (C7_firefox_http2_profile (HTTP := Reference.http)
              "134.0" "134" 134 eq_refl ltac:(lia) eq_refl)
    as (c & Hc & _ & Hflow & _).
  exists c. split; [exact Hc | exact Hflow].
Defined.

Lemma C9_witness :
  exists c h,
    Safari (HTTP := Reference.http) "18.3" = inl c /\
    buildHeaders c PlatformMac = inl h /\
    dom h = {[ "User-Agent" ]}.
Proof.
  destruct (C9_safari_mac_headers (HTTP := Reference.http) eq_refl eq_refl)
    as (c & h & ua & Hc & Hh & Hdom & _).
  exists c, h. split; [exact Hc|]. split; [exact Hh | exact Hdom].
Defined.

(** ** Configuring a transport *)

Section Configure.

Context `{HTTP : HTTPCollaborator} `{GT : GreaseTables}.

(** What a successful constructor call says about its result. *)
Lemma Chromium_inv (brand : Brand) (version : string) (c : ClientSpec) :
  Chromium brand version = inl c ->
  exists majorStr majorNum,
    parseMajorVersion version = inl (majorStr, majorNum) /\
    100 <= majorNum /\
    c = {| version := version;
           http2Options := chromiumHTTP2Options majorNum;
           tlsSpecFn := fun _ => inl (newTLSSpecFunc (chromiumTLSHelloID majorNum));
           buildHeaders := chromiumBuildHeaders brand version majorStr majorNum |}.
Proof.
  unfold Chromium.
  destruct (parseMajorVersion version) as [[majorStr majorNum]|]; [|done].
  destruct (Z.ltb_spec majorNum 100); [done|].
  cbn zeta. destruct (validateTLSHelloID _); [done|].
  intros [= <-]. by exists majorStr, majorNum.
Qed.

Lemma Firefox_inv (version : string) (c : ClientSpec) :
  Firefox version = inl c ->
  exists majorStr majorNum,
    parseMajorVersion version = inl (majorStr, majorNum) /\
    55 <= majorNum /\
    c = {| version := version;
           http2Options := firefoxHTTP2Options;
           tlsSpecFn := fun _ => inl (newTLSSpecFunc (firefoxTLSHelloID majorNum));
           buildHeaders := firefoxBuildHeaders version |}.
Proof.
  unfold Firefox.
  destruct (parseMajorVersion version) as [[majorStr majorNum]|]; [|done].
  destruct (Z.ltb_spec majorNum 55); [done|].
  cbn zeta. destruct (validateTLSHelloID _); [done|].
  intros [= <-]. by exists majorStr, majorNum.
Qed.

Lemma Safari_inv (version : string) (c : ClientSpec) :
  Safari version = inl c ->
  exists majorStr majorNum,
    parseMajorVersion version = inl (majorStr, majorNum) /\
    16 <= majorNum /\
    c = {| version := version;
           http2Options := safariHTTP2Options;
           tlsSpecFn := safariTLSSpecFn;
           buildHeaders := safariBuildHeaders version |}.
Proof.
  unfold Safari.
  destruct (parseMajorVersion version) as [[majorStr majorNum]|]; [|done].
  destruct (Z.ltb_spec majorNum 16); [done|].
  destruct (validateAll _); [done|].
  intros [= <-]. by exists majorStr, majorNum.
Qed.

Lemma chromiumBuildHeaders_notDesktop brand version majorStr majorNum p :
  notDesktop p ->
  chromiumBuildHeaders brand version majorStr majorNum p =
  inr (Errorf "chromium on %s: %w" [p] (Sentinel ErrUnsupportedPlatform)).
Proof.
  intros (Hw & Hm & Hl). unfold chromiumBuildHeaders.
  by rewrite !bool_decide_eq_false_2.
Qed.

Lemma firefoxBuildHeaders_notDesktop version p :
  notDesktop p ->
  firefoxBuildHeaders version p =
  inr (Errorf "firefox on %s: %w" [p] (Sentinel ErrUnsupportedPlatform)).
Proof.
  intros (Hw & Hm & Hl). unfold firefoxBuildHeaders.
  by rewrite !bool_decide_eq_false_2.
Qed.

(** A spec whose supplier does not depend on the platform and whose header
    builder rejects it: [NewTransport] configures the base transport first
    and reports the platform afterwards. *)
Lemma NewTransport_configures_first
  (c : ClientSpec) (p : Platform) (t : http_Transport)
  (f : TLSSpecFunc) (err : error) :
  tlsSpecFn c p = inl f ->
  buildHeaders c p = inr err ->
  errors_Is err ErrUnsupportedPlatform = true ->
  let result := NewTransport c p [WithBaseTransport (Some t)] in
  let configured := ConfigureTransport c t p in
  fst result = fst configured /\
  (exists e,
      snd result = inr e /\
      (errors_Is e ErrUnsupportedPlatform = true <-> snd configured = None)) /\
  (http2_enable_error (with_GetTlsClientHelloSpec t f) = None ->
   failsWith (snd result) ErrUnsupportedPlatform /\
   configured =
     (with_h2 (with_GetTlsClientHelloSpec t f)
        (applyHTTP2Options (http2Options c) http2_Transport_zero), None)).
Proof.
  intros Hf Hb He. cbn zeta.
  unfold NewTransport, ConfigureTransport, http2_ConfigureTransports, failsWith.
  cbn [foldl WithBaseTransport baseTransport]. rewrite Hf, Hb.
  destruct (http2_enable_error _) as [msg|]; cbn [fst snd].
  - split; [reflexivity|]. split; [|done].
    eexists. split; [reflexivity|]. cbn. split; done.
  - split; [reflexivity|]. split.
    + exists err. by split.
    + intros _. split; [by exists err | reflexivity].
Qed.

(** What [applyHTTP2Options] leaves on a fresh HTTP/2 transport for a
    profile whose connection flow is not negative: every field is the
    profile's. *)
Lemma applyHTTP2Options_zero_fields (o : HTTP2Options) :
  0 <= ConnectionFlow o ->
  let t2 := applyHTTP2Options o http2_Transport_zero in
  t2_Settings t2 = Settings o /\
  t2_MaxHeaderListSize t2 = MaxHeaderListSize o /\
  t2_InitialWindowSize t2 = InitialWindowSize o /\
  t2_HeaderTableSize t2 = HeaderTableSize o /\
  t2_TransportConnFlow t2 = ConnectionFlow o /\
  t2_HeaderPriority t2 = HeaderPriority o.
Proof.
  intros Hflow. cbn. repeat split.
  - destruct (Z.ltb_spec 0 (ConnectionFlow o)); [done | lia].
  - by destruct (HeaderPriority o).
Qed.

Lemma Chromium_http2 (brand : Brand) (version : string) (c : ClientSpec) :
  Chromium brand version = inl c ->
  Settings (http2Options c) <> [] /\
  InitialWindowSize (http2Options c) = 6291456 /\
  HeaderTableSize (http2Options c) = 65536 /\
  (MaxHeaderListSize (http2Options c) = 100000 \/
   MaxHeaderListSize (http2Options c) = 262144) /\
  ConnectionFlow (http2Options c) = 0 /\
  HeaderPriority (http2Options c) = None.
Proof.
  intros Hc. apply Chromium_inv in Hc as (majorStr & majorNum & _ & _ & ->).
  cbn [http2Options]. unfold chromiumHTTP2Options.
  destruct (majorNum <? 107); [|destruct (majorNum <? 120)]; cbn;
    (split; [done|]); (split; [done|]); (split; [done|]);
    (split; [by (left + right)|]); done.
Qed.

Lemma Firefox_http2 (version : string) (c : ClientSpec) :
  Firefox version = inl c -> http2Options c = firefoxHTTP2Options.
Proof.
  intros Hc. by apply Firefox_inv in Hc as (majorStr & majorNum & _ & _ & ->).
Qed.

(** C10: for a Chromium or Firefox spec and platform ios or ipados,
    NewTransport returns no Transport; its error wraps ErrUnsupportedPlatform
    exactly when ConfigureTransport has succeeded before, and the base
    transport then comes back with the ClientHello supplier installed and
    the HTTP/2 settings of the spec applied: the registered HTTP/2 transport
    holds the spec's SETTINGS list, header-list, window and table sizes,
    connection flow and header priority, with the values of the family. *)
Theorem C10_new_transport_reports_platform_after_configuring
  (brand : Brand) (version : string) (c : ClientSpec)
  (platform : Platform) (t : http_Transport) :
  Chromium brand version = inl c \/ Firefox version = inl c ->
  platform = PlatformIOS \/ platform = PlatformIPadOS ->
  let result := NewTransport c platform [WithBaseTransport (Some t)] in
  let configured := ConfigureTransport c t platform in
  exists f,
    tlsSpecFn c platform = inl f /\
    fst result = fst configured /\
    (exists e,
        snd result = inr e /\
        (errors_Is e ErrUnsupportedPlatform = true <-> snd configured = None)) /\
    (http2_enable_error (with_GetTlsClientHelloSpec t f) = None ->
     failsWith (snd result) ErrUnsupportedPlatform /\
     snd configured = None /\
     GetTlsClientHelloSpec (fst result) = Some f /\
     h2 (fst result) =
       Some (applyHTTP2Options (http2Options c) http2_Transport_zero) /\
     exists t2,
       h2 (fst result) = Some t2 /\
       t2_Settings t2 = Settings (http2Options c) /\
       t2_Settings t2 <> [] /\
       t2_MaxHeaderListSize t2 = MaxHeaderListSize (http2Options c) /\
       t2_InitialWindowSize t2 = InitialWindowSize (http2Options c) /\
       t2_HeaderTableSize t2 = HeaderTableSize (http2Options c) /\
       t2_TransportConnFlow t2 = ConnectionFlow (http2Options c) /\
       t2_HeaderPriority t2 = HeaderPriority (http2Options c) /\
       ((exists b v, Chromium b v = inl c) ->
        t2_InitialWindowSize t2 = 6291456 /\
        t2_HeaderTableSize t2 = 65536 /\
        (t2_MaxHeaderListSize t2 = 100000 \/
         t2_MaxHeaderListSize t2 = 262144) /\
        t2_TransportConnFlow t2 = 0 /\
        t2_HeaderPriority t2 = None) /\
       ((exists v, Firefox v = inl c) ->
        t2_Settings t2 =
          [ {| ID := SettingHeaderTableSize; Val := 65536 |};
            {| ID := SettingInitialWindowSize; Val := 131072 |};
            {| ID := SettingMaxFrameSize; Val := 16384 |} ] /\
        t2_InitialWindowSize t2 = 131072 /\
        t2_HeaderTableSize t2 = 65536 /\
        t2_TransportConnFlow t2 = 12517377 /\
        t2_HeaderPriority t2 =
          Some {| StreamDep := 13; Exclusive := false; Weight := 41 |})).
Proof.
  intros Hc Hp.
  assert (Hnd : notDesktop platform).
  { unfold notDesktop. destruct Hp as [-> | ->]; by repeat split. }
  assert (Hshape : exists f err,
             tlsSpecFn c platform = inl f /\
             buildHeaders c platform = inr err /\
             errors_Is err ErrUnsupportedPlatform = true).
  { destruct Hc as [Hc|Hc].
    - apply Chromium_inv in Hc as (majorStr & majorNum & _ & _ & ->).
      eexists _, _. split; [reflexivity|]. cbn [buildHeaders].
      rewrite chromiumBuildHeaders_notDesktop by done. by split.
    - apply Firefox_inv in Hc as (majorStr & majorNum & _ & _ & ->).
      eexists _, _. split; [reflexivity|]. cbn [buildHeaders].
      rewrite firefoxBuildHeaders_notDesktop by done. by split. }
  destruct Hshape as (f & err & Hf & Hb & He).
  destruct (NewTransport_configures_first c platform t f err Hf Hb He)
    as (Hfst & Herr & Hok).
  cbn zeta. exists f. split; [exact Hf|]. split; [exact Hfst|].
  split; [exact Herr|].
  intros Hen. destruct (Hok Hen) as [Hfail Hcfg].
  split; [exact Hfail|]. rewrite Hfst, Hcfg. cbn [fst snd with_h2 h2].
  split; [done|]. split; [done|]. split; [done|].
  eexists. split; [reflexivity|].
  assert (Hflow : 0 <= ConnectionFlow (http2Options c) /\
                  Settings (http2Options c) <> []).
  { destruct Hc as [Hc|Hc].
    - apply Chromium_http2 in Hc as (Hs & _ & _ & _ & -> & _). by split.
    - apply Firefox_http2 in Hc as ->. by split. }
  destruct Hflow as [Hflow Hne].
  destruct (applyHTTP2Options_zero_fields _ Hflow)
    as (Hs & Hm & Hw & Ht & Hcf & Hhp).
  split; [exact Hs|]. split; [by rewrite Hs|].
  split; [exact Hm|]. split; [exact Hw|]. split; [exact Ht|].
  split; [exact Hcf|]. split; [exact Hhp|].
  rewrite Hs, Hm, Hw, Ht, Hcf, Hhp. split.
  - intros (b & v & Hv).
    by apply Chromium_http2 in Hv as (_ & ? & ? & ? & ? & ?).
  - intros (v & Hv). apply Firefox_http2 in Hv as ->. by repeat split.
Qed.

(** On a platform that Safari does not support, [ConfigureTransport] fails
    before it touches the transport. *)
Lemma Safari_configure_unsupported
  (version : string) (c : ClientSpec) (p : Platform) (t : http_Transport) :
  Safari version = inl c ->
  p <> PlatformMac -> p <> PlatformIOS -> p <> PlatformIPadOS ->
  exists err,
    ConfigureTransport c t p = (t, Some err) /\
    errors_Is err ErrUnsupportedPlatform = true.
Proof.
  intros Hc Hm Hi Hp.
  apply Safari_inv in Hc as (majorStr & majorNum & _ & _ & ->).
  unfold ConfigureTransport. cbn [tlsSpecFn]. unfold safariTLSSpecFn.
  rewrite !bool_decide_eq_false_2 by done. cbn. by eexists.
Qed.

End Configure.

Section ConfigureAtReference.

#[local] Existing Instance Reference.tls.
#[local] Existing Instance Reference.http.
#[local] Existing Instance Reference.grease.

Lemma C10_witness :
  exists c t',
    Chromium
      BrandChrome "137.0.0.0" = inl c /\
    NewTransport c PlatformIOS
      [WithBaseTransport (Some defaultTransport)] =
      (t', inr (Errorf "chromium on %s: %w" ["ios"]
                  (Sentinel ErrUnsupportedPlatform))) /\
    is_Some (GetTlsClientHelloSpec t') /\
    exists t2,
      h2 t' = Some t2 /\
      t2_MaxHeaderListSize t2 = 262144 /\
      t2_InitialWindowSize t2 = 6291456 /\
      t2_Settings t2 =
        [ {| ID := SettingHeaderTableSize; Val := 65536 |};
          {| ID := SettingEnablePush; Val := 0 |};
          {| ID := SettingInitialWindowSize; Val := 6291456 |};
          {| ID := SettingMaxHeaderListSize; Val := 262144 |} ].
Proof.
  destruct (Chromium
              BrandChrome "137.0.0.0") as [c|] eqn:Hc; [|discriminate].
  destruct (C10_new_transport_reports_platform_after_configuring
             
              BrandChrome "137.0.0.0" c PlatformIOS defaultTransport
              (or_introl Hc) (or_introl eq_refl))
    as (f & Hf & _ & _ & Hok).
  injection Hc as <-. injection Hf as <-.
  destruct (Hok eq_refl)
    as (_ & _ & Hget & _ & t2 & Hh2 & Hset & _ & Hmax & Hwin & _).
  eexists _, _. split; [reflexivity|]. split; [reflexivity|].
  split; [eexists; exact Hget|].
  exists t2. split; [exact Hh2|].
  split; [exact Hmax|]. split; [exact Hwin | exact Hset].
Defined.

(** C2 fails on the code for Chromium (and likewise Firefox): on platform
    ios, [ConfigureTransport] returns a nil error, and the transport, which
    had neither a ClientHello supplier nor an HTTP/2 transport, has both
    afterwards. *)
Lemma C2_chromium_configure_ios_succeeds :
  exists c t',
    Chromium
      BrandChrome "137.0.0.0" = inl c /\
    ConfigureTransport c defaultTransport PlatformIOS
      = (t', None) /\
    GetTlsClientHelloSpec defaultTransport = None /\
    GetTlsClientHelloSpec t' = Some (newTLSSpecFunc HelloChrome_133) /\
    h2 defaultTransport = None /\
    h2 t' = Some (applyHTTP2Options (chromiumHTTP2Options 137) http2_Transport_zero).
Proof. eexists _, _. repeat split. Qed.

Lemma C2_firefox_configure_ipados_succeeds :
  exists c t',
    Firefox "134.0" = inl c /\
    ConfigureTransport c defaultTransport PlatformIPadOS
      = (t', None) /\
    GetTlsClientHelloSpec defaultTransport = None /\
    GetTlsClientHelloSpec t' = Some (newTLSSpecFunc HelloFirefox_120) /\
    h2 defaultTransport = None /\
    h2 t' = Some (applyHTTP2Options firefoxHTTP2Options http2_Transport_zero).
Proof. eexists _, _. repeat split. Qed.

End ConfigureAtReference.

(** ** The sec-ch-ua client hint *)

Section ClientHints.

Context `{HTTP : HTTPCollaborator} `{GT : GreaseTables}.

Lemma CanonicalHeaderKey_ne (k1 k2 : string) :
  toLower k1 <> toLower k2 -> CanonicalHeaderKey k1 <> CanonicalHeaderKey k2.
Proof.
  intros Hne Heq. apply Hne.
  by rewrite <- (CanonicalHeaderKey_case k1), Heq, CanonicalHeaderKey_case.
Qed.

Lemma Header_Get_Set_ne (h : Header) (key key' value : string) :
  toLower key <> toLower key' ->
  Header_Get (Header_Set h key value) key' = Header_Get h key'.
Proof.
  intros Hne. unfold Header_Get, Header_Set, index.
  by rewrite lookup_insert_ne by by apply CanonicalHeaderKey_ne.
Qed.


(** The six arrangements of three tuples: the tuples are all there, and
    tuple [i] stands at position [order[i]]. *)
Lemma permuteBy_three (order : list nat) (a b c : string * string) :
  order ≡ₚ [0; 1; 2]%nat ->
  permuteBy order [a; b; c] ≡ₚ [a; b; c] /\
  exists i j k,
    order = [i; j; k] /\
    permuteBy order [a; b; c] !! i = Some a /\
    permuteBy order [a; b; c] !! j = Some b /\
    permuteBy order [a; b; c] !! k = Some c.
Proof.
  intros Hperm. symmetry in Hperm.
  apply permutations_Permutation in Hperm.
  vm_compute in Hperm.
  repeat (apply elem_of_cons in Hperm as [->|Hperm]);
    [..|by apply elem_of_nil in Hperm];
    (split; [cbn; solve_Permutation | by eexists _, _, _]).
Qed.


End ClientHints.

Section ClientHintsAtReference.

#[local] Existing Instance Reference.tls.
#[local] Existing Instance Reference.http.
#[local] Existing Instance Reference.grease.

Example clientHintUA_chrome_137 :
  clientHintUA BrandChrome "137" 137 =
  Join [brandEntry (BrandChrome, "137"); brandEntry ("Chromium", "137");
        brandEntry ("Not/A)Brand", "24")] ", ".
Proof. reflexivity. Qed.

(** An order that is not its own inverse: major 123 has order [1; 2; 0]. *)
Example clientHintUA_chrome_123 :
  clientHintUA BrandChrome "123" 123 =
  Join [brandEntry (BrandChrome, "123"); brandEntry ("Not:A-Brand", "8");
        brandEntry ("Chromium", "123")] ", ".
Proof. reflexivity. Qed.


End ClientHintsAtReference.

(** ** The per-request header algorithm *)

Section RoundTrip.

Context `{HTTP : HTTPCollaborator} `{RT : GoRuntime}.

Lemma Header_Get_firstValue (h : Header) (key : string) :
  Header_Get h key = firstValue h (CanonicalHeaderKey key).
Proof.
  unfold Header_Get, firstValue, index.
  by destruct (h !! CanonicalHeaderKey key) as [[[|v l]|]|].
Qed.

(** *** Default-header injection *)

Lemma filledFrom_cons kv l h k : filledFrom l h k -> filledFrom (kv :: l) h k.
Proof.
  intros (d & v & rest & Hin & Hk & Hv). exists d, v, rest.
  split; [by right | done].
Qed.

(** One iteration either leaves the map alone or fills a gap. *)
Lemma injectDefault_cases (h : Header) (key : string) (values : slice) :
  (injectDefault h (key, values) = h /\
   (firstValue h (CanonicalHeaderKey key) <> "" \/
    forall v rest, values <> Some (v :: rest))) \/
  (exists v rest,
      values = Some (v :: rest) /\
      firstValue h (CanonicalHeaderKey key) = "" /\
      injectDefault h (key, values) = <[CanonicalHeaderKey key := Some [v]]> h).
Proof.
  unfold injectDefault. rewrite Header_Get_firstValue.
  destruct (decide (firstValue h (CanonicalHeaderKey key) = "")) as [He|Hne].
  - rewrite (bool_decide_eq_true_2 _ He). cbn [negb].
    destruct values as [[|v rest]|].
    + left. split; [done|]. by right.
    + right. by exists v, rest.
    + left. split; [done|]. by right.
  - rewrite (bool_decide_eq_false_2 _ Hne). left. split; [done|]. by left.
Qed.

(** After the loop every name holds what it held before, or, if it had no
    non-empty value, the first value of a default of that name. *)
Lemma inject_only_fills (l : list (string * slice)) :
  forall (h : Header) (k : string),
    foldl injectDefault h l !! k = h !! k \/
    (firstValue h k = "" /\ filledFrom l (foldl injectDefault h l) k).
Proof.
  induction l as [|[key values] l IH]; intros h k; [by left|].
  cbn [foldl].
  destruct (injectDefault_cases h key values)
    as [[-> _]|(v & rest & -> & He & ->)].
  - destruct (IH h k) as [?|[? ?]]; [by left|].
    right. split; [done | by apply filledFrom_cons].
  - destruct (IH (<[CanonicalHeaderKey key := Some [v]]> h) k)
      as [Hsame|[Hfv Hfill]].
    + destruct (decide (CanonicalHeaderKey key = k)) as [Heq|Hne].
      * right. subst k. split; [done|].
        exists key, v, rest. split; [by left|]. split; [done|].
        rewrite Hsame. apply lookup_insert_eq.
      * left. rewrite Hsame. by apply lookup_insert_ne.
    + right. split; [|by apply filledFrom_cons].
      destruct (decide (CanonicalHeaderKey key = k)) as [Heq|Hne].
      * by subst k.
      * unfold firstValue in *. by rewrite lookup_insert_ne in Hfv.
Qed.

(** A default with a value whose name had no non-empty value is installed
    (its own first value, or that of another default of the same name). *)
Lemma inject_fills (l : list (string * slice)) :
  forall (h : Header) (d v : string) (rest : list string),
    (d, Some (v :: rest)) ∈ l ->
    firstValue h (CanonicalHeaderKey d) = "" ->
    filledFrom l (foldl injectDefault h l) (CanonicalHeaderKey d).
Proof.
  induction l as [|[key values] l IH]; intros h d v rest Hin He.
  { by apply elem_of_nil in Hin. }
  cbn [foldl].
  destruct (injectDefault_cases h key values)
    as [[-> Hwhy]|(v1 & rest1 & -> & He1 & ->)].
  - apply filledFrom_cons.
    apply elem_of_cons in Hin as [Heq|Hin]; [|by eapply IH].
    injection Heq as <- <-. destruct Hwhy as [Hne|Hnone]; [done|].
    by destruct (Hnone v rest).
  - destruct (inject_only_fills l (<[CanonicalHeaderKey key := Some [v1]]> h)
                (CanonicalHeaderKey d)) as [Hsame|[_ Hfill]];
      [|by apply filledFrom_cons].
    destruct (decide (CanonicalHeaderKey key = CanonicalHeaderKey d))
      as [Heq|Hne].
    + exists key, v1, rest1. split; [by left|]. split; [done|].
      rewrite Hsame, Heq. apply lookup_insert_eq.
    + apply filledFrom_cons.
      apply elem_of_cons in Hin as [Heq|Hin]; [by injection Heq as <- <-|].
      eapply IH; [done|].
      unfold firstValue in *. by rewrite lookup_insert_ne.
Qed.

Lemma inject_dom (l : list (string * slice)) (h : Header) (k : string) :
  k ∈ dom (foldl injectDefault h l) <->
  k ∈ dom h \/
  (firstValue h k = "" /\
   exists d v rest, (d, Some (v :: rest)) ∈ l /\ CanonicalHeaderKey d = k).
Proof.
  rewrite !elem_of_dom. split.
  - intros Hk. destruct (inject_only_fills l h k) as [Hsame|[He Hfill]].
    + left. by rewrite <- Hsame.
    + right. split; [done|].
      destruct Hfill as (d & v & rest & Hin & Hd & _). by exists d, v, rest.
  - intros [Hk|[He (d & v & rest & Hin & <-)]].
    + destruct (inject_only_fills l h k) as [Hsame|[_ Hfill]].
      * by rewrite Hsame.
      * destruct Hfill as (? & ? & ? & _ & _ & ->). by eexists.
    + destruct (inject_fills l h d v rest Hin He) as (? & ? & ? & _ & _ & ->).
      by eexists.
Qed.


(** *** The shuffle *)

Lemma swap_Permutation (keys keys' : list string) (i j : nat) :
  swap keys i j = Some keys' -> keys' ≡ₚ keys.
Proof.
  unfold swap.
  destruct (keys !! i) as [ki|] eqn:Hi; [|done].
  destruct (keys !! j) as [kj|] eqn:Hj; [|done].
  intros [= <-]. by apply Permutation_insert_swap.
Qed.

Lemma swap_in_range (keys : list string) (i j : nat) :
  (i < length keys)%nat -> (j < length keys)%nat ->
  exists keys', swap keys i j = Some keys'.
Proof.
  intros Hi Hj. unfold swap.
  destruct (lookup_lt_is_Some_2 keys i Hi) as [ki ->].
  destruct (lookup_lt_is_Some_2 keys j Hj) as [kj ->].
  by eexists.
Qed.

(** The loop never indexes out of range, and permutes. *)
Lemma shuffleLoop_Permutation (i : nat) :
  forall (keys : list string) (r : rng),
    (i = 0 \/ i < length keys)%nat ->
    exists keys' r',
      shuffleLoop i keys r = Some (keys', r') /\ keys' ≡ₚ keys.
Proof.
  induction i as [|i IH]; intros keys r Hi; [by eexists _, _|].
  destruct Hi as [?|Hi]; [done|].
  cbn [shuffleLoop].
  pose proof (uint64n_lt r (S (S i)) ltac:(lia)) as Hj.
  destruct (uint64n r (S (S i))) as [j r'] eqn:Hdraw. cbn [fst] in Hj.
  destruct (swap_in_range keys (S i) j) as [keys1 Hswap]; [lia..|].
  rewrite Hswap.
  pose proof (swap_Permutation _ _ _ _ Hswap) as Hperm.
  destruct (IH keys1 r') as (keys' & r'' & Hloop & Hperm').
  { right. rewrite (Permutation_length Hperm). lia. }
  exists keys', r''. split; [done|]. by rewrite Hperm'.
Qed.

Lemma Shuffle_Permutation (keys : list string) (r : rng) :
  exists keys' r', Shuffle keys r = Some (keys', r') /\ keys' ≡ₚ keys.
Proof.
  apply shuffleLoop_Permutation.
  destruct keys; cbn [length]; [by left | right; lia].
Qed.

Lemma rangeOrder_keys (h : Header) : (rangeOrder h).*1 ≡ₚ elements (dom h).
Proof.
  rewrite (rangeOrder_perm h).
  apply NoDup_Permutation.
  - apply NoDup_fst_map_to_list.
  - apply NoDup_elements.
  - intros k. rewrite elem_of_elements, elem_of_dom, list_elem_of_fmap.
    split.
    + intros [[k' v] [-> Hin]]. apply elem_of_map_to_list in Hin. by eexists.
    + intros [v Hv]. exists (k, v). split; [done|].
      by apply elem_of_map_to_list.
Qed.

(** *** Installing the header order *)

Lemma installHeaderOrder_spec (header : Header) (r : rng) :
  exists header' r',
    installHeaderOrder header r = Some (header', r') /\
    (forall k, k <> HeaderOrderKey -> header' !! k = header !! k) /\
    (index header HeaderOrderKey <> None -> header' = header) /\
    (index header HeaderOrderKey = None ->
     exists keys,
       header' !! HeaderOrderKey = Some (Some keys) /\
       keys ≡ₚ elements (dom header)).
Proof.
  unfold installHeaderOrder.
  destruct (index header HeaderOrderKey) as [l|] eqn:Hidx.
  - eexists _, _. split; [reflexivity|]. by repeat split.
  - destruct (Shuffle_Permutation (rangeOrder header).*1 r)
      as (keys & r' & -> & Hperm).
    eexists _, _. split; [reflexivity|].
    split; [intros k Hk; by apply lookup_insert_ne|].
    split; [done|]. intros _. exists keys.
    split; [apply lookup_insert_eq|]. by rewrite Hperm, rangeOrder_keys.
Qed.

(** *** The whole of RoundTrip *)

Lemma elem_of_rangeOrder (m : Header) (d : string) (vs : slice) :
  (d, vs) ∈ rangeOrder m <-> m !! d = Some vs.
Proof. rewrite (rangeOrder_perm m). apply elem_of_map_to_list. Qed.

Lemma filledFrom_defaults (defaults h : Header) (k : string) :
  filledFrom (rangeOrder defaults) h k ->
  exists d v rest,
    defaults !! d = Some (Some (v :: rest)) /\ CanonicalHeaderKey d = k /\
    h !! k = Some (Some [v]).
Proof.
  intros (d & v & rest & Hin & Hk & Hv). exists d, v, rest.
  by rewrite <- elem_of_rangeOrder.
Qed.

Lemma pinPseudoHeaderOrder_ne (t : Transport) (header : Header) (k : string) :
  k <> PHeaderOrderKey -> pinPseudoHeaderOrder t header !! k = header !! k.
Proof. intros Hk. unfold pinPseudoHeaderOrder. by rewrite lookup_insert_ne. Qed.




(** One run on a request without header-order list: the installed list
    arranges the names present after the injection. *)
Lemma RoundTrip_installs_order (t : Transport) (header : Header) (r : rng) :
  index header HeaderOrderKey = None ->
  (forall d, is_Some (defaultHeaders t !! d) ->
             CanonicalHeaderKey d <> HeaderOrderKey) ->
  let present :=
    injectDefaults (defaultHeaders t) (pinPseudoHeaderOrder t header) in
  exists header' r' answer keys,
    RoundTrip t (Some header) r = Some (header', r', answer) /\
    header' !! HeaderOrderKey = Some (Some keys) /\
    keys ≡ₚ elements (dom present) /\
    (forall k, k <> HeaderOrderKey -> header' !! k = present !! k) /\
    (forall k, k ∈ dom header -> k ∈ dom present).
Proof.
  intros Hnone Hdefaults present. unfold RoundTrip. fold present.
  assert (Hidx : index present HeaderOrderKey = None).
  { destruct (inject_only_fills (rangeOrder (defaultHeaders t))
                (pinPseudoHeaderOrder t header) HeaderOrderKey)
      as [Hsame|[_ Hfill]].
    - unfold index, present, injectDefaults. rewrite Hsame.
      by rewrite pinPseudoHeaderOrder_ne.
    - apply filledFrom_defaults in Hfill as (d & v & rest & Hd & Hdk & _).
      destruct (Hdefaults d); [by eexists | done]. }
  destruct (installHeaderOrder_spec present r)
    as (header' & r' & -> & Hother & _ & Horder).
  destruct (Horder Hidx) as (keys & Hkeys & Hperm).
  eexists _, _, _, keys. split; [reflexivity|].
  split; [done|]. split; [done|]. split; [done|].
  intros k Hk. unfold present, injectDefaults. apply inject_dom. left.
  unfold pinPseudoHeaderOrder. rewrite dom_insert_L.
  apply elem_of_union. by right.
Qed.

End RoundTrip.


(** The default headers that the three header builders produce have no
    header-order annotation among their names. *)

Section BuiltDefaults.

Context `{HTTP : HTTPCollaborator} `{GT : GreaseTables}.

Lemma noOrderKey_empty : noOrderKey ∅.
Proof. intros d [v Hv]. by rewrite lookup_empty in Hv. Qed.

Lemma noOrderKey_Set (h : Header) (key value : string) :
  toLower key <> toLower HeaderOrderKey ->
  noOrderKey h -> noOrderKey (Header_Set h key value).
Proof.
  intros Hkey Hh d Hd. unfold Header_Set in Hd.
  destruct (decide (CanonicalHeaderKey key = d)) as [<-|Hne].
  - intros Heq. apply Hkey.
    by rewrite <- Heq, !CanonicalHeaderKey_case.
  - rewrite lookup_insert_ne in Hd by done. by apply Hh.
Qed.

Lemma built_defaults_noOrderKey
  (brand : Brand) (version : string) (c : ClientSpec)
  (p : Platform) (h : Header) :
  Chromium brand version = inl c \/ Safari version = inl c \/
  Firefox version = inl c ->
  buildHeaders c p = inl h ->
  noOrderKey h.
Proof.
  intros [Hc|[Hc|Hc]].
  - apply Chromium_inv in Hc as (majorStr & majorNum & _ & _ & ->).
    cbn [buildHeaders]. unfold chromiumBuildHeaders.
    repeat (destruct (bool_decide _); [|]); try discriminate;
      intros [= <-];
      repeat (apply noOrderKey_Set; [vm_compute; discriminate|]);
      apply noOrderKey_empty.
  - apply Safari_inv in Hc as (majorStr & majorNum & _ & _ & ->).
    cbn [buildHeaders]. unfold safariBuildHeaders.
    repeat (destruct (bool_decide _); [|]); try discriminate;
      intros [= <-];
      repeat (apply noOrderKey_Set; [vm_compute; discriminate|]);
      apply noOrderKey_empty.
  - apply Firefox_inv in Hc as (majorStr & majorNum & _ & _ & ->).
    cbn [buildHeaders]. unfold firefoxBuildHeaders.
    repeat (destruct (bool_decide _); [|]); try discriminate;
      intros [= <-];
      repeat (apply noOrderKey_Set; [vm_compute; discriminate|]);
      apply noOrderKey_empty.
Qed.

End BuiltDefaults.

Section RoundTripAtReference.

#[local] Existing Instance Reference.tls.
#[local] Existing Instance Reference.http.
#[local] Existing Instance Reference.runtime.

Example RoundTrip_keeps_caller_user_agent :
  Reference.sentHeader (RoundTrip Reference.sampleTransport (Some Reference.sampleRequest) 5%nat) =
  Some (<[HeaderOrderKey := Some ["Accept"; "User-Agent"; "PHeader-Order:"]]>
          (<[PHeaderOrderKey := pseudoHeaderOrder Reference.sampleTransport]>
             Reference.sampleRequest)).
Proof. vm_compute. reflexivity. Qed.

Example RoundTrip_fills_user_agent :
  (Reference.sentHeader (RoundTrip Reference.sampleTransport (Some Reference.bareRequest) 2%nat)
     ≫= fun h => h !! "User-Agent") =
  Some (Some ["Mozilla/5.0 (X11; Linux x86_64; rv:134.0) Gecko/20100101 Firefox/134.0"]).
Proof. vm_compute. reflexivity. Qed.


Lemma sampleTransport_noOrderKey :
  forall d, is_Some (defaultHeaders Reference.sampleTransport !! d) ->
            CanonicalHeaderKey d <> HeaderOrderKey.
Proof.
  apply noOrderKey_Set; [vm_compute; discriminate | apply noOrderKey_empty].
Defined.




End RoundTripAtReference.

(** * Further properties of the package *)

(** ** Definitions used by the statements *)

(** The browser major that a hello identifier is named after. *)
Definition helloVersion (id : ClientHelloID) : Z :=
  match id with
  | HelloChrome_100 => 100
  | HelloChrome_102 => 102
  | HelloChrome_106_Shuffle => 106
  | HelloChrome_112_PSK_Shuf => 112
  | HelloChrome_114_Padding_PSK_Shuf => 114
  | HelloChrome_115_PQ => 115
  | HelloChrome_120 => 120
  | HelloChrome_131 => 131
  | HelloChrome_133 => 133
  | HelloFirefox_55 => 55
  | HelloFirefox_56 => 56
  | HelloFirefox_63 => 63
  | HelloFirefox_65 => 65
  | HelloFirefox_99 => 99
  | HelloFirefox_102 => 102
  | HelloFirefox_105 => 105
  | HelloFirefox_120 => 120
  | HelloSafari_16_0 => 16
  | HelloIOS_14 => 14
  end.

(** The identifiers that each version switch can return. *)
Definition chromiumProfiles : list ClientHelloID :=
  [ HelloChrome_100; HelloChrome_102; HelloChrome_106_Shuffle;
    HelloChrome_112_PSK_Shuf; HelloChrome_114_Padding_PSK_Shuf;
    HelloChrome_115_PQ; HelloChrome_120; HelloChrome_131; HelloChrome_133 ].

Definition firefoxProfiles : list ClientHelloID :=
  [ HelloFirefox_55; HelloFirefox_56; HelloFirefox_63; HelloFirefox_65;
    HelloFirefox_99; HelloFirefox_102; HelloFirefox_105; HelloFirefox_120 ].

(** The value of the first SETTINGS entry with the given identifier. *)
Definition settingValue (id : SettingID) (l : list Setting) : option Z :=
  Val <$> find (fun s => bool_decide (ID s = id)) l.

(** The four request pseudo-headers of HTTP/2. *)
Definition pseudoHeaders : list string :=
  [":method"; ":authority"; ":scheme"; ":path"].

(** A spec made by one of the three constructors. *)
Definition constructed `{HTTP : HTTPCollaborator} `{GT : GreaseTables}
  (c : ClientSpec) : Prop :=
  (exists brand version, Chromium brand version = inl c) \/
  (exists version, Safari version = inl c) \/
  (exists version, Firefox version = inl c).

(** The platforms of the Safari family and of the two desktop families. *)
Definition safariPlatform (p : Platform) : Prop :=
  p = PlatformMac \/ p = PlatformIOS \/ p = PlatformIPadOS.

Definition desktopPlatform (p : Platform) : Prop :=
  p = PlatformWindows \/ p = PlatformMac \/ p = PlatformLinux.

(** The result is a value, not an error. *)
Definition succeeds {A : Type} (result : A + error) : Prop :=
  exists a, result = inl a.

(** A base transport on which HTTP/2 was enabled before. *)
Definition configuredTransport `{TLS : TLSCollaborator} : http_Transport :=
  with_h2 defaultTransport http2_Transport_zero.

(** The three kinds of error of a constructor: a parse error, a version
    below the family minimum, a hello identifier that the TLS library does
    not resolve. *)
Inductive errorKind : Type := KindParse | KindVersion | KindProfile.

Definition hasKind (err : error) (k : errorKind) : Prop :=
  match k with
  | KindParse => isParseError err = true
  | KindVersion => errors_Is err ErrUnsupportedVersion = true
  | KindProfile => exists msg, errors_Is err (External msg) = true
  end.

(** No default header is named like the pseudo-header-order annotation. *)
Definition noPseudoOrderKey `{HTTP : HTTPCollaborator} (defaults : Header) : Prop :=
  forall d, is_Some (defaults !! d) -> CanonicalHeaderKey d <> PHeaderOrderKey.

(** Every default header that has a value has a non-empty first value. *)
Definition defaultsNonEmpty (defaults : Header) : Prop :=
  forall d v rest, defaults !! d = Some (Some (v :: rest)) -> v <> "".

(** A request that carries a pseudo-header order and a header order of its
    own. *)
Definition orderedRequest : Header :=
  <[HeaderOrderKey := Some ["accept"; "user-agent"]]>
    (<[PHeaderOrderKey := Some [":path"; ":method"]]> Reference.bareRequest).

(** ** The profile tables *)

Section Tables.

Context `{HTTP : HTTPCollaborator} `{GT : GreaseTables}.

(** X1: for a Chromium major from 100 on, the hello identifier chosen is
    one of the nine Chrome identifiers, it is not newer than the major, and
    no Chrome identifier that is not newer than the major is newer than it;
    so a newer browser never gets an older profile. *)
Theorem chromiumTLSHelloID_newest_not_newer (m : Z) :
  100 <= m ->
  chromiumTLSHelloID m ∈ chromiumProfiles /\
  helloVersion (chromiumTLSHelloID m) <= m /\
  (forall id, id ∈ chromiumProfiles -> helloVersion id <= m ->
              helloVersion id <= helloVersion (chromiumTLSHelloID m)) /\
  (forall m', m <= m' ->
      helloVersion (chromiumTLSHelloID m) <= helloVersion (chromiumTLSHelloID m')).
Proof.
  intros Hm.
  assert (Hmax : forall n, 100 <= n ->
             helloVersion (chromiumTLSHelloID n) <= n /\
             forall id, id ∈ chromiumProfiles -> helloVersion id <= n ->
                        helloVersion id <= helloVersion (chromiumTLSHelloID n)).
  { intros n Hn. unfold chromiumTLSHelloID. split.
    - ltb_cases; cbn [helloVersion]; lia.
    - intros id Hid. unfold chromiumProfiles in Hid.
      repeat (apply elem_of_cons in Hid as [->|Hid]);
        [..|by apply elem_of_nil in Hid];
        cbn [helloVersion]; intros ?; ltb_cases; cbn [helloVersion]; lia. }
  assert (Hin : forall n, chromiumTLSHelloID n ∈ chromiumProfiles).
  { intros n. unfold chromiumTLSHelloID, chromiumProfiles.
    ltb_cases; by apply (bool_decide_unpack _). }
  split; [apply Hin|].
  destruct (Hmax m Hm) as [Hle Hbest]. split; [done|]. split; [done|].
  intros m' Hm'. destruct (Hmax m' ltac:(lia)) as [_ Hbest'].
  apply Hbest'; [apply Hin | lia].
Qed.

(** X2: the same for Firefox: for a major from 55 on the identifier chosen
    is the newest of the eight Firefox identifiers that is not newer than
    the major, and the choice is monotone in the major. *)
Theorem firefoxTLSHelloID_newest_not_newer (m : Z) :
  55 <= m ->
  firefoxTLSHelloID m ∈ firefoxProfiles /\
  helloVersion (firefoxTLSHelloID m) <= m /\
  (forall id, id ∈ firefoxProfiles -> helloVersion id <= m ->
              helloVersion id <= helloVersion (firefoxTLSHelloID m)) /\
  (forall m', m <= m' ->
      helloVersion (firefoxTLSHelloID m) <= helloVersion (firefoxTLSHelloID m')).
Proof.
  intros Hm.
  assert (Hmax : forall n, 55 <= n ->
             helloVersion (firefoxTLSHelloID n) <= n /\
             forall id, id ∈ firefoxProfiles -> helloVersion id <= n ->
                        helloVersion id <= helloVersion (firefoxTLSHelloID n)).
  { intros n Hn. unfold firefoxTLSHelloID. split.
    - ltb_cases; cbn [helloVersion]; lia.
    - intros id Hid. unfold firefoxProfiles in Hid.
      repeat (apply elem_of_cons in Hid as [->|Hid]);
        [..|by apply elem_of_nil in Hid];
        cbn [helloVersion]; intros ?; ltb_cases; cbn [helloVersion]; lia. }
  assert (Hin : forall n, firefoxTLSHelloID n ∈ firefoxProfiles).
  { intros n. unfold firefoxTLSHelloID, firefoxProfiles.
    ltb_cases; by apply (bool_decide_unpack _). }
  split; [apply Hin|].
  destruct (Hmax m Hm) as [Hle Hbest]. split; [done|]. split; [done|].
  intros m' Hm'. destruct (Hmax m' ltac:(lia)) as [_ Hbest'].
  apply Hbest'; [apply Hin | lia].
Qed.

(** X3: the three Chromium HTTP/2 bands, for every major: the SETTINGS
    frame announces ENABLE_PUSH = 0 exactly from major 107 on and
    MAX_CONCURRENT_STREAMS = 1000 exactly below major 120; the header list
    limit is 100000 below 107 and 262144 from there on; the window size,
    the table size and the pseudo-header order are the same in all bands. *)
Theorem chromiumHTTP2Options_bands (m : Z) :
  (settingValue SettingEnablePush (Settings (chromiumHTTP2Options m)) = Some 0
   <-> 107 <= m) /\
  (settingValue SettingEnablePush (Settings (chromiumHTTP2Options m)) = None
   <-> m < 107) /\
  (settingValue SettingMaxConcurrentStreams (Settings (chromiumHTTP2Options m))
     = Some 1000 <-> m < 120) /\
  (settingValue SettingMaxConcurrentStreams (Settings (chromiumHTTP2Options m))
     = None <-> 120 <= m) /\
  MaxHeaderListSize (chromiumHTTP2Options m) =
    (if m <? 107 then 100000 else 262144) /\
  InitialWindowSize (chromiumHTTP2Options m) = 6291456 /\
  HeaderTableSize (chromiumHTTP2Options m) = 65536 /\
  PseudoHeaderOrder (chromiumHTTP2Options m) = pseudoHeaders.
Proof.
  unfold chromiumHTTP2Options.
  destruct (Z.ltb_spec m 107); [|destruct (Z.ltb_spec m 120)];
    cbn; repeat split; intros; try done; try lia.
Qed.

End Tables.

Lemma chromiumTLSHelloID_newest_not_newer_witness :
  helloVersion (chromiumTLSHelloID 113) <= 113 /\
  helloVersion (chromiumTLSHelloID 113) <= helloVersion (chromiumTLSHelloID 137).
Proof.
  destruct (chromiumTLSHelloID_newest_not_newer 113 ltac:(lia))
    as (_ & Hle & _ & Hmono).
  split; [exact Hle | apply Hmono; lia].
Defined.

Lemma firefoxTLSHelloID_newest_not_newer_witness :
  helloVersion (firefoxTLSHelloID 100) <= 100 /\
  helloVersion (firefoxTLSHelloID 100) <= helloVersion (firefoxTLSHelloID 134).
Proof.
  destruct (firefoxTLSHelloID_newest_not_newer 100 ltac:(lia))
    as (_ & Hle & _ & Hmono).
  split; [exact Hle | apply Hmono; lia].
Defined.

(** ** The HTTP/2 profile of a constructed spec *)

Section Profiles.

Context `{HTTP : HTTPCollaborator} `{GT : GreaseTables}.

(** The HTTP/2 profile of a constructed spec is one of the three the
    package defines. *)
Lemma constructed_http2Options (c : ClientSpec) :
  constructed c ->
  (exists m, http2Options c = chromiumHTTP2Options m) \/
  http2Options c = safariHTTP2Options \/
  http2Options c = firefoxHTTP2Options.
Proof.
  intros [(brand & version & Hc)|[(version & Hc)|(version & Hc)]].
  - apply Chromium_inv in Hc as (majorStr & majorNum & _ & _ & ->).
    left. by exists majorNum.
  - apply Safari_inv in Hc as (majorStr & majorNum & _ & _ & ->).
    right. by left.
  - apply Firefox_inv in Hc as (majorStr & majorNum & _ & _ & ->).
    right. by right.
Qed.

(** X4: in the HTTP/2 profile of every constructed spec the SETTINGS frame
    and the transport fields agree: the frame has a HEADER_TABLE_SIZE and an
    INITIAL_WINDOW_SIZE entry, equal to the fields of the same name; its
    MAX_HEADER_LIST_SIZE entry, when there is one, equals the field, and the
    field is 0 when there is none; no setting occurs twice. *)
Theorem constructed_settings_agree (c : ClientSpec) :
  constructed c ->
  let o := HTTP2Opts c in
  settingValue SettingHeaderTableSize (Settings o) = Some (HeaderTableSize o) /\
  settingValue SettingInitialWindowSize (Settings o)
    = Some (InitialWindowSize o) /\
  (forall v, settingValue SettingMaxHeaderListSize (Settings o) = Some v ->
             v = MaxHeaderListSize o) /\
  (settingValue SettingMaxHeaderListSize (Settings o) = None ->
   MaxHeaderListSize o = 0) /\
  NoDup (ID <$> Settings o).
Proof.
  intros Hc. cbn zeta. unfold HTTP2Opts.
  destruct (constructed_http2Options c Hc) as [[m ->]|[->| ->]].
  - unfold chromiumHTTP2Options.
    destruct (m <? 107); [|destruct (m <? 120)]; cbn;
      (repeat split; [by intros ? [= <-] | done |]);
      by apply (bool_decide_unpack _).
  - cbn. repeat split; [done|]. by apply (bool_decide_unpack _).
  - cbn. repeat split; [done|]. by apply (bool_decide_unpack _).
Qed.

(** X5: the pseudo-header order of every constructed spec arranges the four
    request pseudo-headers, each once, and starts with :method. *)
Theorem constructed_pseudo_header_order (c : ClientSpec) :
  constructed c ->
  ClientSpec_PseudoHeaderOrder c ≡ₚ pseudoHeaders /\
  NoDup (ClientSpec_PseudoHeaderOrder c) /\
  length (ClientSpec_PseudoHeaderOrder c) = 4%nat /\
  head (ClientSpec_PseudoHeaderOrder c) = Some ":method".
Proof.
  intros Hc. unfold ClientSpec_PseudoHeaderOrder.
  assert (Hcases :
    PseudoHeaderOrder (http2Options c) ∈
      [ [":method"; ":authority"; ":scheme"; ":path"];
        [":method"; ":scheme"; ":path"; ":authority"];
        [":method"; ":path"; ":authority"; ":scheme"] ]).
  { destruct (constructed_http2Options c Hc) as [[m ->]|[->| ->]].
    - unfold chromiumHTTP2Options.
      destruct (m <? 107); [|destruct (m <? 120)]; cbn;
        by apply (bool_decide_unpack _).
    - by apply (bool_decide_unpack _).
    - by apply (bool_decide_unpack _). }
  repeat (apply elem_of_cons in Hcases as [->|Hcases]);
    [..|by apply elem_of_nil in Hcases];
    (split; [by apply (bool_decide_unpack _)|]);
    (split; [by apply (bool_decide_unpack _)|]); done.
Qed.

End Profiles.

Section ProfilesAtReference.

#[local] Existing Instance Reference.tls.
#[local] Existing Instance Reference.http.
#[local] Existing Instance Reference.grease.

Lemma constructed_safari_18 :
  exists c, Safari "18.3" = inl c /\ constructed c.
Proof.
  destruct (Safari "18.3") as [c|] eqn:Hc; [|discriminate].
  exists c. split; [reflexivity|]. right. left. by exists "18.3".
Defined.

Lemma constructed_settings_agree_witness :
  exists c,
    Safari "18.3" = inl c /\
    settingValue SettingInitialWindowSize (Settings (HTTP2Opts c))
      = Some (InitialWindowSize (HTTP2Opts c)).
Proof.
  destruct constructed_safari_18 as (c & Hc & Hcons).
  exists c. split; [exact Hc|].
  exact (proj1 (proj2 (constructed_settings_agree c Hcons))).
Defined.

Lemma constructed_pseudo_header_order_witness :
  exists c,
    Safari "18.3" = inl c /\ ClientSpec_PseudoHeaderOrder c ≡ₚ pseudoHeaders.
Proof.
  destruct constructed_safari_18 as (c & Hc & Hcons).
  exists c. split; [exact Hc|].
  exact (proj1 (constructed_pseudo_header_order c Hcons)).
Defined.

End ProfilesAtReference.

(** ** The default headers *)

Section DefaultHeaders.

Context `{HTTP : HTTPCollaborator} `{GT : GreaseTables}.

(** What the Chromium header builder returns when it returns a map. *)
Lemma chromiumBuildHeaders_inv brand version majorStr majorNum p h :
  chromiumBuildHeaders brand version majorStr majorNum p = inl h ->
  exists uaPlatform hintPlatform,
    (p, uaPlatform, hintPlatform) ∈
      [ (PlatformWindows, "Windows NT 10.0; Win64; x64", "Windows");
        (PlatformMac, "Macintosh; Intel Mac OS X 10_15_7", "macOS");
        (PlatformLinux, "X11; Linux x86_64", "Linux") ] /\
    let ua :=
      "Mozilla/5.0 (" +:+ uaPlatform +:+
      ") AppleWebKit/537.36 (KHTML, like Gecko) Chrome/" +:+ version +:+
      " Safari/537.36" in
    let q := String (ascii_of_nat 34) EmptyString in
    h = Header_Set
          (Header_Set
             (Header_Set
                (Header_Set ∅ "user-agent"
                   (if bool_decide (brand = BrandEdge)
                    then ua +:+ " Edg/" +:+ version else ua))
                "sec-ch-ua" (clientHintUA brand majorStr majorNum))
             "sec-ch-ua-mobile" "?0")
          "sec-ch-ua-platform" (q +:+ hintPlatform +:+ q).
Proof.
  unfold chromiumBuildHeaders.
  destruct (decide (p = PlatformWindows)) as [->|Hw].
  { rewrite bool_decide_eq_true_2 by done. intros [= <-].
    eexists _, _. split; [|reflexivity]. by apply (bool_decide_unpack _). }
  rewrite (bool_decide_eq_false_2 _ Hw).
  destruct (decide (p = PlatformMac)) as [->|Hm].
  { rewrite bool_decide_eq_true_2 by done. intros [= <-].
    eexists _, _. split; [|reflexivity]. by apply (bool_decide_unpack _). }
  rewrite (bool_decide_eq_false_2 _ Hm).
  destruct (decide (p = PlatformLinux)) as [->|Hl].
  { rewrite bool_decide_eq_true_2 by done. intros [= <-].
    eexists _, _. split; [|reflexivity]. by apply (bool_decide_unpack _). }
  by rewrite (bool_decide_eq_false_2 _ Hl).
Qed.

Lemma Header_Set_dom (h : Header) (key value : string) :
  dom (Header_Set h key value) = {[ CanonicalHeaderKey key ]} ∪ dom h.
Proof. unfold Header_Set. apply dom_insert_L. Qed.

(** X6: the user-agent of a Chromium spec depends on the brand only through
    Edge: two brands other than Edge (Chrome, Brave, or any other string)
    get the same user-agent, and Edge gets that user-agent followed by
    " Edg/" and the version. *)
Theorem chromium_user_agent_brand
  (brand1 brand2 : Brand) (version : string) (p : Platform)
  (c1 c2 cE : ClientSpec) (h1 h2 hE : Header) :
  brand1 <> BrandEdge -> brand2 <> BrandEdge ->
  Chromium brand1 version = inl c1 ->
  Chromium brand2 version = inl c2 ->
  Chromium BrandEdge version = inl cE ->
  buildHeaders c1 p = inl h1 ->
  buildHeaders c2 p = inl h2 ->
  buildHeaders cE p = inl hE ->
  Header_Get h1 "user-agent" = Header_Get h2 "user-agent" /\
  Header_Get hE "user-agent" =
    Header_Get h1 "user-agent" +:+ " Edg/" +:+ version.
Proof.
  intros Hb1 Hb2 Hc1 Hc2 HcE Hh1 Hh2 HhE.
  apply Chromium_inv in Hc1 as (s1 & n1 & _ & _ & ->).
  apply Chromium_inv in Hc2 as (s2 & n2 & _ & _ & ->).
  apply Chromium_inv in HcE as (sE & nE & _ & _ & ->).
  cbn [buildHeaders] in *.
  apply chromiumBuildHeaders_inv in Hh1 as (ua1 & hint1 & Hp1 & ->).
  apply chromiumBuildHeaders_inv in Hh2 as (ua2 & hint2 & Hp2 & ->).
  apply chromiumBuildHeaders_inv in HhE as (uaE & hintE & HpE & ->).
  repeat (rewrite Header_Get_Set ||
          rewrite Header_Get_Set_ne by (vm_compute; discriminate)).
  rewrite (bool_decide_eq_false_2 _ Hb1), (bool_decide_eq_false_2 _ Hb2).
  rewrite (bool_decide_eq_true_2 (BrandEdge = BrandEdge)) by done.
  assert (ua1 = ua2 /\ ua1 = uaE) as [<- <-]; [|done].
  repeat (apply elem_of_cons in Hp1 as [[= -> -> ->]|Hp1]);
    [..|by apply elem_of_nil in Hp1];
    repeat (apply elem_of_cons in Hp2 as [[= ? ->]|Hp2]);
    try (by apply elem_of_nil in Hp2); try discriminate;
    repeat (apply elem_of_cons in HpE as [[= ? ->]|HpE]);
    try (by apply elem_of_nil in HpE); try discriminate; done.
Qed.

(** X7: the default headers of a Chromium spec are exactly four names:
    user-agent, sec-ch-ua, sec-ch-ua-mobile and sec-ch-ua-platform, each
    with one value; sec-ch-ua-mobile is "?0", and sec-ch-ua-platform is the
    quoted name Windows, macOS or Linux of the platform. *)
Theorem chromium_default_header_names
  (brand : Brand) (version : string) (p : Platform)
  (c : ClientSpec) (h : Header) :
  Chromium brand version = inl c ->
  buildHeaders c p = inl h ->
  let q := String (ascii_of_nat 34) EmptyString in
  dom h = {[ CanonicalHeaderKey "user-agent"; CanonicalHeaderKey "sec-ch-ua";
             CanonicalHeaderKey "sec-ch-ua-mobile";
             CanonicalHeaderKey "sec-ch-ua-platform" ]} /\
  size (dom h) = 4%nat /\
  (forall k vs, h !! k = Some vs -> exists v, vs = Some [v]) /\
  Header_Get h "sec-ch-ua-mobile" = "?0" /\
  (exists hint,
      (p, hint) ∈ [ (PlatformWindows, "Windows"); (PlatformMac, "macOS");
                    (PlatformLinux, "Linux") ] /\
      Header_Get h "sec-ch-ua-platform" = q +:+ hint +:+ q).
Proof.
  intros Hc Hh.
  apply Chromium_inv in Hc as (majorStr & majorNum & _ & _ & ->).
  cbn [buildHeaders] in Hh.
  apply chromiumBuildHeaders_inv in Hh as (ua & hint & Hp & ->). cbn zeta.
  assert (Hne : forall k1 k2, toLower k1 <> toLower k2 ->
                  CanonicalHeaderKey k1 <> CanonicalHeaderKey k2)
    by apply CanonicalHeaderKey_ne.
  pose proof (Hne "user-agent" "sec-ch-ua" ltac:(vm_compute; discriminate)).
  pose proof (Hne "user-agent" "sec-ch-ua-mobile" ltac:(vm_compute; discriminate)).
  pose proof (Hne "user-agent" "sec-ch-ua-platform" ltac:(vm_compute; discriminate)).
  pose proof (Hne "sec-ch-ua" "sec-ch-ua-mobile" ltac:(vm_compute; discriminate)).
  pose proof (Hne "sec-ch-ua" "sec-ch-ua-platform" ltac:(vm_compute; discriminate)).
  pose proof (Hne "sec-ch-ua-mobile" "sec-ch-ua-platform" ltac:(vm_compute; discriminate)).
  assert (Hdom : dom (Header_Set
                   (Header_Set
                      (Header_Set
                         (Header_Set ∅ "user-agent"
                            (if bool_decide (brand = BrandEdge)
                             then ("Mozilla/5.0 (" +:+ ua +:+
                                   ") AppleWebKit/537.36 (KHTML, like Gecko) Chrome/"
                                   +:+ version +:+ " Safari/537.36")
                                  +:+ " Edg/" +:+ version
                             else "Mozilla/5.0 (" +:+ ua +:+
                                  ") AppleWebKit/537.36 (KHTML, like Gecko) Chrome/"
                                  +:+ version +:+ " Safari/537.36"))
                         "sec-ch-ua" (clientHintUA brand majorStr majorNum))
                      "sec-ch-ua-mobile" "?0")
                   "sec-ch-ua-platform"
                   (String (ascii_of_nat 34) EmptyString +:+ hint +:+
                    String (ascii_of_nat 34) EmptyString))
                 = {[ CanonicalHeaderKey "user-agent"; CanonicalHeaderKey "sec-ch-ua";
                      CanonicalHeaderKey "sec-ch-ua-mobile";
                      CanonicalHeaderKey "sec-ch-ua-platform" ]}).
  { rewrite !Header_Set_dom, dom_empty_L. apply set_eq. intros k.
    rewrite !elem_of_union, !elem_of_singleton, elem_of_empty. tauto. }
  split; [exact Hdom|]. split.
  { rewrite Hdom. rewrite !size_union, !size_singleton; [done|..];
      rewrite ?disjoint_union_l, !disjoint_singleton_l, ?not_elem_of_singleton;
      repeat split; congruence. }
  split.
  { intros k vs. unfold Header_Set.
    rewrite !lookup_insert. repeat case_decide; try (intros [= <-]; by eexists).
    all: try by rewrite lookup_empty. }
  split.
  { rewrite Header_Get_Set_ne by (vm_compute; discriminate).
    apply Header_Get_Set. }
  exists hint. split; [|apply Header_Get_Set].
  repeat (apply elem_of_cons in Hp as [[= -> _ ->]|Hp]);
    [..|by apply elem_of_nil in Hp]; by apply (bool_decide_unpack _).
Qed.

(** *** Substring facts *)

Lemma prefix_nil (s : string) : String.prefix "" s = true.
Proof. destruct s; with_strategy transparent [String.prefix] reflexivity. Qed.

Lemma prefix_cons (a b : ascii) (s1 s2 : string) :
  String.prefix (String a s1) (String b s2) =
  if ascii_dec a b then String.prefix s1 s2 else false.
Proof. with_strategy transparent [String.prefix] reflexivity. Qed.

Lemma prefix_append (v b : string) : String.prefix v (v +:+ b) = true.
Proof.
  induction v as [|c v IH]; [apply prefix_nil|].
  change (String c v +:+ b) with (String c (v +:+ b)).
  rewrite prefix_cons. by destruct (ascii_dec c c).
Qed.

Lemma prefix_append_r (v s b : string) :
  String.prefix v s = true -> String.prefix v (s +:+ b) = true.
Proof.
  revert s. induction v as [|c v IH]; intros s; [intros _; apply prefix_nil|].
  destruct s as [|c' s].
  - with_strategy transparent [String.prefix] (intros [=]).
  - change (String c' s +:+ b) with (String c' (s +:+ b)).
    rewrite !prefix_cons.
    destruct (ascii_dec c c'); [apply IH | done].
Qed.

Lemma Contains_unfold (s v : string) :
  strings.Contains s v =
  String.prefix v s ||
  match s with
  | EmptyString => false
  | String _ rest => strings.Contains rest v
  end.
Proof. by destruct s. Qed.

Lemma Contains_here (v b : string) : strings.Contains (v +:+ b) v = true.
Proof. by rewrite Contains_unfold, prefix_append. Qed.

Lemma Contains_append_l (a s v : string) :
  strings.Contains s v = true -> strings.Contains (a +:+ s) v = true.
Proof.
  intros Hs. induction a as [|c a IH]; [done|].
  change (String c a +:+ s) with (String c (a +:+ s)).
  rewrite Contains_unfold, IH. apply orb_true_r.
Qed.

Lemma Contains_append_r (s b v : string) :
  strings.Contains s v = true -> strings.Contains (s +:+ b) v = true.
Proof.
  induction s as [|c s IH]; intros Hs.
  - rewrite Contains_unfold in Hs. rewrite orb_false_r in Hs.
    destruct v; [|done]. by rewrite Contains_unfold, prefix_nil.
  - rewrite Contains_unfold in Hs. apply orb_true_iff in Hs as [Hp|Hs].
    + by rewrite Contains_unfold, (prefix_append_r _ _ _ Hp).
    + change (String c s +:+ b) with (String c (s +:+ b)).
      rewrite Contains_unfold, (IH Hs). apply orb_true_r.
Qed.

(** What the Safari and Firefox header builders return when they return a
    map. *)
Lemma safariBuildHeaders_inv version p h :
  safariBuildHeaders version p = inl h ->
  exists ua,
    h = Header_Set ∅ "user-agent" ua /\ strings.Contains ua version = true.
Proof.
  unfold safariBuildHeaders.
  repeat (destruct (bool_decide _); [|]); try discriminate;
    intros [= <-]; eexists; (split; [reflexivity|]);
    repeat (apply Contains_here || apply Contains_append_l).
Qed.

Lemma firefoxBuildHeaders_inv version p h :
  firefoxBuildHeaders version p = inl h ->
  exists ua,
    h = Header_Set ∅ "user-agent" ua /\ strings.Contains ua version = true.
Proof.
  unfold firefoxBuildHeaders.
  repeat (destruct (bool_decide _); [|]); try discriminate;
    intros [= <-]; eexists; (split; [reflexivity|]);
    do 3 apply Contains_append_l; apply Contains_here.
Qed.

(** X8: Safari and Firefox specs never emit client hints: on every platform
    on which their header builder returns a map, the map has the single
    name user-agent, and Header.Get returns the empty string for every name
    that is not user-agent up to the case of letters, sec-ch-ua among
    them. *)
Theorem safari_firefox_only_user_agent
  (version : string) (c : ClientSpec) (p : Platform) (h : Header) :
  Safari version = inl c \/ Firefox version = inl c ->
  buildHeaders c p = inl h ->
  dom h = {[ CanonicalHeaderKey "user-agent" ]} /\
  Header_Get h "user-agent" <> "" /\
  (forall key, toLower key <> "user-agent" -> Header_Get h key = "") /\
  Header_Get h "sec-ch-ua" = "" /\
  Header_Get h "sec-ch-ua-mobile" = "" /\
  Header_Get h "sec-ch-ua-platform" = "".
Proof.
  intros Hc Hh.
  assert (Hshape : exists ua,
             h = Header_Set ∅ "user-agent" ua /\ ua <> "").
  { destruct Hc as [Hc|Hc].
    - apply Safari_inv in Hc as (majorStr & majorNum & _ & _ & ->).
      cbn [buildHeaders] in Hh. unfold safariBuildHeaders in Hh.
      repeat (destruct (bool_decide _); [|]); try discriminate;
        injection Hh as <-; by eexists.
    - apply Firefox_inv in Hc as (majorStr & majorNum & _ & _ & ->).
      cbn [buildHeaders] in Hh. unfold firefoxBuildHeaders in Hh.
      repeat (destruct (bool_decide _); [|]); try discriminate;
        injection Hh as <-; by eexists. }
  destruct Hshape as (ua & -> & Hua).
  assert (Hother : forall key, toLower key <> "user-agent" ->
                     Header_Get (Header_Set ∅ "user-agent" ua) key = "").
  { intros key Hkey. rewrite Header_Get_Set_ne by (intros Heq; by apply Hkey).
    unfold Header_Get, index. by rewrite lookup_empty. }
  split; [rewrite Header_Set_dom, dom_empty_L; apply (right_id_L ∅ (∪))|].
  split; [by rewrite Header_Get_Set|].
  split; [exact Hother|].
  repeat split; apply Hother; vm_compute; discriminate.
Qed.

(** X9: every constructor puts the version string it was given, whole and
    unchanged, into the user-agent: whatever follows the major (which no
    constructor looks at) reaches the header. *)
Theorem user_agent_contains_version
  (c : ClientSpec) (p : Platform) (h : Header) :
  constructed c ->
  buildHeaders c p = inl h ->
  strings.Contains (Header_Get h "user-agent") (Version c) = true.
Proof.
  intros [(brand & v & Hc)|[(v & Hc)|(v & Hc)]] Hh.
  - apply Chromium_inv in Hc as (majorStr & majorNum & _ & _ & ->).
    cbn [buildHeaders Version version] in *.
    apply chromiumBuildHeaders_inv in Hh as (ua & hint & _ & ->).
    repeat (rewrite Header_Get_Set ||
            rewrite Header_Get_Set_ne by (vm_compute; discriminate)).
    assert (Hbase : strings.Contains
              ("Mozilla/5.0 (" +:+ ua +:+
               ") AppleWebKit/537.36 (KHTML, like Gecko) Chrome/" +:+
               v +:+ " Safari/537.36") v = true).
    { do 3 apply Contains_append_l. apply Contains_here. }
    destruct (bool_decide _); [by apply Contains_append_r | done].
  - apply Safari_inv in Hc as (majorStr & majorNum & _ & _ & ->).
    cbn [buildHeaders Version version] in *.
    apply safariBuildHeaders_inv in Hh as (ua & -> & Hua).
    by rewrite Header_Get_Set.
  - apply Firefox_inv in Hc as (majorStr & majorNum & _ & _ & ->).
    cbn [buildHeaders Version version] in *.
    apply firefoxBuildHeaders_inv in Hh as (ua & -> & Hua).
    by rewrite Header_Get_Set.
Qed.

End DefaultHeaders.

Section DefaultHeadersAtReference.

#[local] Existing Instance Reference.tls.
#[local] Existing Instance Reference.http.
#[local] Existing Instance Reference.grease.

Lemma chromium_user_agent_brand_witness :
  exists cB cE hB hE,
    Chromium BrandBrave "120.0.0.0" = inl cB /\
    Chromium BrandEdge "120.0.0.0" = inl cE /\
    buildHeaders cB PlatformWindows = inl hB /\
    buildHeaders cE PlatformWindows = inl hE /\
    Header_Get hE "user-agent" =
      Header_Get hB "user-agent" +:+ " Edg/" +:+ "120.0.0.0".
Proof.
  destruct (Chromium BrandBrave "120.0.0.0") as [cB|] eqn:HcB; [|discriminate].
  destruct (Chromium BrandEdge "120.0.0.0") as [cE|] eqn:HcE; [|discriminate].
  destruct (buildHeaders cB PlatformWindows) as [hB|] eqn:HhB;
    [|injection HcB as <-; discriminate].
  destruct (buildHeaders cE PlatformWindows) as [hE|] eqn:HhE;
    [|injection HcE as <-; discriminate].
  exists cB, cE, hB, hE.
  split; [reflexivity|]. split; [reflexivity|].
  split; [exact HhB|]. split; [exact HhE|].
  exact (proj2 (chromium_user_agent_brand BrandBrave BrandBrave "120.0.0.0"
                  PlatformWindows cB cB cE hB hB hE
                  ltac:(discriminate) ltac:(discriminate)
                  HcB HcB HcE HhB HhB HhE)).
Defined.

Lemma chromium_default_header_names_witness :
  exists c h,
    Chromium BrandChrome "137.0.0.0" = inl c /\
    buildHeaders c PlatformMac = inl h /\
    size (dom h) = 4%nat.
Proof.
  destruct (Chromium BrandChrome "137.0.0.0") as [c|] eqn:Hc; [|discriminate].
  destruct (buildHeaders c PlatformMac) as [h|] eqn:Hh;
    [|injection Hc as <-; discriminate].
  exists c, h. split; [reflexivity|]. split; [exact Hh|].
  exact (proj1 (proj2 (chromium_default_header_names BrandChrome "137.0.0.0"
                         PlatformMac c h Hc Hh))).
Defined.

Lemma safari_firefox_only_user_agent_witness :
  exists c h,
    Firefox "134.0" = inl c /\
    buildHeaders c PlatformLinux = inl h /\
    Header_Get h "sec-ch-ua" = "".
Proof.
  destruct (Firefox "134.0") as [c|] eqn:Hc; [|discriminate].
  destruct (buildHeaders c PlatformLinux) as [h|] eqn:Hh;
    [|injection Hc as <-; discriminate].
  exists c, h. split; [reflexivity|]. split; [exact Hh|].
  destruct (safari_firefox_only_user_agent "134.0" c PlatformLinux h
              (or_intror Hc) Hh) as (_ & _ & _ & Hhint & _).
  exact Hhint.
Defined.

Lemma user_agent_contains_version_witness :
  exists c h,
    Safari "18.3" = inl c /\
    buildHeaders c PlatformIOS = inl h /\
    strings.Contains (Header_Get h "user-agent") "18.3" = true.
Proof.
  destruct constructed_safari_18 as (c & Hc & Hcons).
  destruct (buildHeaders c PlatformIOS) as [h|] eqn:Hh.
  - exists c, h. split; [exact Hc|]. split; [exact Hh|].
    pose proof (user_agent_contains_version c PlatformIOS h Hcons Hh) as Hv.
    apply Safari_inv in Hc as (majorStr & majorNum & _ & _ & ->).
    exact Hv.
  - apply Safari_inv in Hc as (majorStr & majorNum & _ & _ & ->).
    discriminate.
Defined.

End DefaultHeadersAtReference.

(** ** Platforms and the transport builder *)

Section Builder.

Context `{HTTP : HTTPCollaborator} `{GT : GreaseTables}.

Lemma desktopPlatform_dec (p : Platform) : desktopPlatform p \/ notDesktop p.
Proof.
  unfold desktopPlatform, notDesktop.
  destruct (decide (p = PlatformWindows)); [by left; left|].
  destruct (decide (p = PlatformMac)); [by left; right; left|].
  destruct (decide (p = PlatformLinux)); [by left; right; right|].
  by right.
Qed.

Lemma notDesktop_not_desktop (p : Platform) :
  notDesktop p -> ~ desktopPlatform p.
Proof. intros (Hw & Hm & Hl) [?|[?|?]]; congruence. Qed.

Lemma chromiumBuildHeaders_desktop brand version majorStr majorNum p :
  desktopPlatform p ->
  succeeds (chromiumBuildHeaders brand version majorStr majorNum p).
Proof.
  unfold succeeds, chromiumBuildHeaders.
  intros [->|[->| ->]]; by eexists.
Qed.

Lemma firefoxBuildHeaders_desktop version p :
  desktopPlatform p -> succeeds (firefoxBuildHeaders version p).
Proof.
  unfold succeeds, firefoxBuildHeaders.
  intros [->|[->| ->]]; by eexists.
Qed.

Lemma safariPlatform_dec (p : Platform) :
  safariPlatform p \/
  (p <> PlatformMac /\ p <> PlatformIOS /\ p <> PlatformIPadOS).
Proof.
  unfold safariPlatform.
  destruct (decide (p = PlatformMac)); [by left; left|].
  destruct (decide (p = PlatformIOS)); [by left; right; left|].
  destruct (decide (p = PlatformIPadOS)); [by left; right; right|].
  by right.
Qed.

(** X10: the platform matrix of the header builders. A Chromium or Firefox
    spec builds default headers exactly on win, mac and linux, a Safari
    spec exactly on mac, ios and ipados; on every other platform (any other
    string) the builder returns an error wrapping ErrUnsupportedPlatform. *)
Theorem buildHeaders_platform_matrix (c : ClientSpec) (p : Platform) :
  constructed c ->
  ((exists brand version, Chromium brand version = inl c) \/
   (exists version, Firefox version = inl c) ->
   (succeeds (buildHeaders c p) <-> desktopPlatform p)) /\
  ((exists version, Safari version = inl c) ->
   (succeeds (buildHeaders c p) <-> safariPlatform p)) /\
  (succeeds (buildHeaders c p) \/
   failsWith (buildHeaders c p) ErrUnsupportedPlatform).
Proof.
  intros Hcons.
  assert (Hchromium : forall brand version,
            Chromium brand version = inl c ->
            (succeeds (buildHeaders c p) <-> desktopPlatform p) /\
            (succeeds (buildHeaders c p) \/
             failsWith (buildHeaders c p) ErrUnsupportedPlatform)).
  { intros brand version Hc.
    apply Chromium_inv in Hc as (majorStr & majorNum & _ & _ & ->).
    cbn [buildHeaders].
    destruct (desktopPlatform_dec p) as [Hp|Hp].
    - pose proof (chromiumBuildHeaders_desktop brand version majorStr
                    majorNum p Hp). split; [done | by left].
    - rewrite chromiumBuildHeaders_notDesktop by done. split.
      + split; [by intros [? ?] | by intros ?%notDesktop_not_desktop].
      + right. by eexists. }
  assert (Hfirefox : forall version,
            Firefox version = inl c ->
            (succeeds (buildHeaders c p) <-> desktopPlatform p) /\
            (succeeds (buildHeaders c p) \/
             failsWith (buildHeaders c p) ErrUnsupportedPlatform)).
  { intros version Hc.
    apply Firefox_inv in Hc as (majorStr & majorNum & _ & _ & ->).
    cbn [buildHeaders].
    destruct (desktopPlatform_dec p) as [Hp|Hp].
    - pose proof (firefoxBuildHeaders_desktop version p Hp).
      split; [done | by left].
    - rewrite firefoxBuildHeaders_notDesktop by done. split.
      + split; [by intros [? ?] | by intros ?%notDesktop_not_desktop].
      + right. by eexists. }
  assert (Hsafari : forall version,
            Safari version = inl c ->
            (succeeds (buildHeaders c p) <-> safariPlatform p) /\
            (succeeds (buildHeaders c p) \/
             failsWith (buildHeaders c p) ErrUnsupportedPlatform)).
  { intros version Hc.
    apply Safari_inv in Hc as (majorStr & majorNum & _ & _ & ->).
    cbn [buildHeaders].
    destruct (safariPlatform_dec p) as [Hp|(Hm & Hi & Hp)].
    - assert (Hok : succeeds (safariBuildHeaders version p)).
      { unfold safariBuildHeaders, succeeds.
        destruct Hp as [->|[->| ->]]; by eexists. }
      split; [done | by left].
    - unfold safariBuildHeaders, succeeds.
      rewrite !bool_decide_eq_false_2 by done. split.
      + split; [by intros [? ?] | intros [?|[?|?]]; congruence].
      + right. by eexists. }
  split; [|split].
  - intros [(brand & version & Hc)|(version & Hc)].
    + by apply (Hchromium brand version).
    + by apply (Hfirefox version).
  - intros (version & Hc). by apply (Hsafari version).
  - destruct Hcons as [(brand & version & Hc)|[(version & Hc)|(version & Hc)]].
    + by apply (Hchromium brand version).
    + by apply (Hsafari version).
    + by apply (Hfirefox version).
Qed.

(** X11: for a Safari spec the two platform checks agree, and the supplier
    depends on the platform alone: ios gets HelloIOS_14, mac and ipados get
    HelloSafari_16_0, whatever the version. On any other platform
    NewTransport returns an error wrapping ErrUnsupportedPlatform and the
    base transport it was given is left exactly as it was. *)
Theorem safari_platform_checks_agree
  (version : string) (c : ClientSpec) (p : Platform) (t : http_Transport) :
  Safari version = inl c ->
  (succeeds (tlsSpecFn c p) <-> succeeds (buildHeaders c p)) /\
  (p = PlatformIOS -> tlsSpecFn c p = inl (newTLSSpecFunc HelloIOS_14)) /\
  (p = PlatformMac \/ p = PlatformIPadOS ->
   tlsSpecFn c p = inl (newTLSSpecFunc HelloSafari_16_0)) /\
  (~ safariPlatform p ->
   exists err,
     NewTransport c p [WithBaseTransport (Some t)] = (t, inr err) /\
     errors_Is err ErrUnsupportedPlatform = true).
Proof.
  intros Hc.
  apply Safari_inv in Hc as (majorStr & majorNum & _ & _ & ->).
  cbn [tlsSpecFn buildHeaders].
  unfold succeeds, safariTLSSpecFn, safariBuildHeaders.
  split; [|split; [|split]].
  - destruct (safariPlatform_dec p) as [[->|[->| ->]]|(Hm & Hi & Hp)];
      try (split; intros _; by eexists).
    rewrite !bool_decide_eq_false_2 by done. cbn.
    split; by intros [? ?].
  - by intros ->.
  - by intros [->| ->].
  - intros Hp. unfold NewTransport, ConfigureTransport.
    cbn [foldl WithBaseTransport baseTransport tlsSpecFn].
    unfold safariTLSSpecFn.
    destruct (safariPlatform_dec p) as [?|(Hm & Hi & Hp')]; [done|].
    rewrite !bool_decide_eq_false_2 by done. cbn. by eexists.
Qed.

(** X12: what ConfigureTransport leaves on the base transport. When the
    supplier cannot be resolved for the platform the transport is untouched
    and that error is returned. When the call returns nil, the supplier of
    the spec for that platform is installed and the registered HTTP/2
    transport holds the spec's SETTINGS list, MaxHeaderListSize,
    InitialWindowSize and HeaderTableSize; its connection flow is the
    spec's when that is positive and is left at zero otherwise; its header
    priority is the spec's when the spec has one and is left absent
    otherwise. *)
Theorem ConfigureTransport_applies_profile
  (c : ClientSpec) (t : http_Transport) (p : Platform) :
  let o := http2Options c in
  let t' := fst (ConfigureTransport c t p) in
  (forall err, tlsSpecFn c p = inr err ->
               ConfigureTransport c t p = (t, Some err)) /\
  (snd (ConfigureTransport c t p) = None ->
   exists f t2,
     tlsSpecFn c p = inl f /\
     GetTlsClientHelloSpec t' = Some f /\
     h2 t' = Some t2 /\
     t2_Settings t2 = Settings o /\
     t2_MaxHeaderListSize t2 = MaxHeaderListSize o /\
     t2_InitialWindowSize t2 = InitialWindowSize o /\
     t2_HeaderTableSize t2 = HeaderTableSize o /\
     (0 < ConnectionFlow o -> t2_TransportConnFlow t2 = ConnectionFlow o) /\
     (ConnectionFlow o <= 0 -> t2_TransportConnFlow t2 = 0) /\
     (forall pr, HeaderPriority o = Some pr -> t2_HeaderPriority t2 = Some pr) /\
     (HeaderPriority o = None -> t2_HeaderPriority t2 = None)).
Proof.
  cbn zeta. unfold ConfigureTransport, http2_ConfigureTransports.
  destruct (tlsSpecFn c p) as [f|err].
  - split; [done|].
    destruct (http2_enable_error _) as [msg|]; cbn; [done|].
    intros _. eexists f, _. split; [reflexivity|]. split; [reflexivity|].
    split; [reflexivity|]. cbn.
    split; [done|]. split; [done|]. split; [done|]. split; [done|].
    destruct (Z.ltb_spec 0 (ConnectionFlow (http2Options c))).
    + split; [done|]. split; [lia|].
      split; [by intros pr ->|by intros ->].
    + split; [lia|]. split; [done|].
      split; [by intros pr ->|by intros ->].
  - cbn. split; [by intros ? [= <-] | done].
Qed.

(** X13: when the HTTP/2 layer cannot be enabled, ConfigureTransport
    returns an error that wraps the library's error (and neither of the
    package's sentinels), nothing is rolled back: the base transport keeps
    the supplier that was installed before the attempt, with its HTTP/2
    transport as before; NewTransport returns no Transport, wraps the same
    error, and leaves the base transport in that state. *)
Theorem ConfigureTransport_http2_failure_keeps_supplier
  (c : ClientSpec) (t : http_Transport) (p : Platform)
  (f : TLSSpecFunc) (msg : string) :
  tlsSpecFn c p = inl f ->
  http2_enable_error (with_GetTlsClientHelloSpec t f) = Some msg ->
  let t' := with_GetTlsClientHelloSpec t f in
  GetTlsClientHelloSpec t' = Some f /\
  h2 t' = h2 t /\
  (exists err,
      ConfigureTransport c t p = (t', Some err) /\
      errors_Is err (External msg) = true /\
      errors_Is err ErrUnsupportedPlatform = false /\
      errors_Is err ErrUnsupportedVersion = false) /\
  (exists err,
      NewTransport c p [WithBaseTransport (Some t)] = (t', inr err) /\
      errors_Is err (External msg) = true /\
      errors_Is err ErrUnsupportedPlatform = false).
Proof.
  intros Hf Hen. cbn zeta.
  unfold NewTransport, ConfigureTransport, http2_ConfigureTransports.
  cbn [foldl WithBaseTransport baseTransport]. rewrite Hf, Hen.
  split; [done|]. split; [done|].
  split; eexists; (split; [reflexivity|]); cbn;
    by rewrite bool_decide_eq_true_2.
Qed.

(** X14: the base transport of NewTransport is the one of the last
    WithBaseTransport option, whatever options precede it; without options,
    or when that option carries a nil pointer, it is the default
    transport. *)
Theorem NewTransport_last_base_wins
  (c : ClientSpec) (p : Platform)
  (opts : list TransportOption) (b : option http_Transport) :
  NewTransport c p (opts ++ [WithBaseTransport b])
    = NewTransport c p [WithBaseTransport b] /\
  NewTransport c p (opts ++ [WithBaseTransport None]) = NewTransport c p [] /\
  NewTransport c p [] = NewTransport c p [WithBaseTransport (Some defaultTransport)].
Proof.
  unfold NewTransport. rewrite !foldl_app. cbn [foldl WithBaseTransport].
  done.
Qed.

(** X15: NewTransport returns a Transport exactly when ConfigureTransport
    returns nil and the header builder returns a map for the platform; the
    Transport then holds the base transport as configured, the
    pseudo-header order of the spec and the headers built for the
    platform. *)
Theorem NewTransport_succeeds_iff
  (c : ClientSpec) (p : Platform) (t : http_Transport) :
  let result := NewTransport c p [WithBaseTransport (Some t)] in
  (succeeds (snd result) <->
   snd (ConfigureTransport c t p) = None /\ succeeds (buildHeaders c p)) /\
  fst result = fst (ConfigureTransport c t p) /\
  (forall T, snd result = inl T ->
     transport T = fst (ConfigureTransport c t p) /\
     pseudoHeaderOrder T = Some (ClientSpec_PseudoHeaderOrder c) /\
     buildHeaders c p = inl (defaultHeaders T)).
Proof.
  cbn zeta. unfold NewTransport, succeeds.
  cbn [foldl WithBaseTransport baseTransport].
  destruct (ConfigureTransport c t p) as [t' [err|]]; cbn [fst snd].
  - split; [|split; [done|done]].
    split; [by intros [? ?] | by intros [? _]].
  - destruct (buildHeaders c p) as [h|err]; cbn [fst snd].
    + split; [|split; [done|by intros T [= <-]]].
      split; [intros _; split; [done | by eexists] | intros _; by eexists].
    + split; [|split; [done|done]].
      split; [by intros [? ?] | by intros [_ [? ?]]].
Qed.

End Builder.

Section BuilderAtReference.

#[local] Existing Instance Reference.tls.
#[local] Existing Instance Reference.http.
#[local] Existing Instance Reference.grease.

Lemma buildHeaders_platform_matrix_witness :
  exists c,
    Safari "18.3" = inl c /\
    succeeds (buildHeaders c PlatformIPadOS) /\
    failsWith (buildHeaders c PlatformLinux) ErrUnsupportedPlatform.
Proof.
  destruct constructed_safari_18 as (c & Hc & Hcons).
  exists c. split; [exact Hc|].
  destruct (buildHeaders_platform_matrix c PlatformIPadOS Hcons)
    as (_ & Hsafari & _).
  destruct (buildHeaders_platform_matrix c PlatformLinux Hcons)
    as (_ & Hsafari' & Hkind).
  split.
  - apply (Hsafari (ex_intro _ "18.3" Hc)). right. by right.
  - destruct Hkind as [Hok|Hfail]; [|exact Hfail].
    apply (Hsafari' (ex_intro _ "18.3" Hc)) in Hok as [?|[?|?]]; discriminate.
Defined.

Lemma safari_platform_checks_agree_witness :
  exists c err,
    Safari "18.3" = inl c /\
    NewTransport c PlatformWindows [WithBaseTransport (Some defaultTransport)]
      = (defaultTransport, inr err) /\
    errors_Is err ErrUnsupportedPlatform = true.
Proof.
  destruct constructed_safari_18 as (c & Hc & _).
  destruct (safari_platform_checks_agree "18.3" c PlatformWindows
              defaultTransport Hc) as (_ & _ & _ & Hnew).
  destruct Hnew as (err & Hrun & Herr).
  { intros [?|[?|?]]; discriminate. }
  exists c, err. split; [exact Hc|]. split; [exact Hrun | exact Herr].
Defined.

Lemma ConfigureTransport_applies_profile_witness :
  exists c t2,
    Safari "18.3" = inl c /\
    h2 (fst (ConfigureTransport c defaultTransport PlatformMac)) = Some t2 /\
    t2_TransportConnFlow t2 = 10485760 /\
    t2_InitialWindowSize t2 = 2097152 /\
    t2_HeaderTableSize t2 = 4096 /\
    t2_MaxHeaderListSize t2 = 0 /\
    t2_HeaderPriority t2 = None /\
    t2_Settings t2 =
      [ {| ID := SettingHeaderTableSize; Val := 4096 |};
        {| ID := SettingEnablePush; Val := 0 |};
        {| ID := SettingMaxConcurrentStreams; Val := 100 |};
        {| ID := SettingInitialWindowSize; Val := 2097152 |};
        {| ID := SettingMaxFrameSize; Val := 16384 |};
        {| ID := settingEnableConnectProtocol; Val := 1 |} ].
Proof.
  destruct (Safari "18.3") as [c|] eqn:Hc; [|discriminate].
  assert (Ho : http2Options c = safariHTTP2Options /\
               snd (ConfigureTransport (HTTP := Reference.http)
                      c defaultTransport PlatformMac) = None).
  { apply Safari_inv in Hc as (majorStr & majorNum & _ & _ & ->).
    split; reflexivity. }
  destruct Ho as [Ho Hnil].
  destruct (ConfigureTransport_applies_profile (HTTP := Reference.http)
              c defaultTransport PlatformMac) as [_ Hok].
  destruct (Hok Hnil)
    as (f & t2 & _ & _ & Hh2 & Hs & Hm & Hw & Ht & Hcf & _ & _ & Hhp).
  rewrite Ho in Hs, Hm, Hw, Ht, Hcf, Hhp.
  exists c, t2. split; [reflexivity|]. split; [exact Hh2|].
  split; [by apply Hcf|]. split; [exact Hw|]. split; [exact Ht|].
  split; [exact Hm|]. split; [by apply Hhp | exact Hs].
Defined.

Lemma ConfigureTransport_http2_failure_keeps_supplier_witness :
  exists c t',
    Firefox "134.0" = inl c /\
    fst (NewTransport c PlatformLinux [WithBaseTransport (Some configuredTransport)])
      = t' /\
    GetTlsClientHelloSpec t' = Some (newTLSSpecFunc HelloFirefox_120) /\
    GetTlsClientHelloSpec configuredTransport = None.
Proof.
  destruct (Firefox "134.0") as [c|] eqn:Hc; [|discriminate].
  assert (Hf : tlsSpecFn c PlatformLinux = inl (newTLSSpecFunc HelloFirefox_120))
    by (injection Hc as <-; reflexivity).
  destruct (ConfigureTransport_http2_failure_keeps_supplier
              (HTTP := Reference.http) c
              configuredTransport PlatformLinux
              (newTLSSpecFunc HelloFirefox_120)
              "protocol https already registered" Hf
              ltac:(vm_compute; reflexivity))
    as (Hget & _ & _ & (err & Hnew & _)).
  eexists c, _. split; [reflexivity|]. rewrite Hnew.
  split; [reflexivity|]. split; [exact Hget | reflexivity].
Defined.

End BuilderAtReference.

(** ** The constructors *)

Section ConstructorErrors.

Context `{HTTP : HTTPCollaborator} `{GT : GreaseTables}.

Lemma parseMajorVersion_error_kind (version : string) (err : error) :
  parseMajorVersion version = inr err ->
  hasKind err KindParse /\ ~ hasKind err KindVersion /\
  ~ hasKind err KindProfile /\ errors_Is err ErrUnsupportedPlatform = false.
Proof.
  unfold parseMajorVersion, strconv.Atoi.
  destruct (strconv.ParseInt _) as [n|e] eqn:Hp; [done|].
  intros [= <-]. cbn.
  assert (He : e = ErrSyntax \/ e = ErrRange).
  { unfold strconv.ParseInt in Hp.
    destruct (list_ascii_of_string _) as [|ch rest]; [left; congruence|].
    cbn zeta in Hp.
    destruct (strconv.ParseUint _) as [un|e'] eqn:Hu.
    - repeat (destruct (_ && _) in Hp; [right; congruence|]). done.
    - injection Hp as ->. unfold strconv.ParseUint in Hu.
      destruct (if _ || _ then rest else ch :: rest) as [|d ds];
        [left; congruence|].
      clear -Hu. revert Hu. generalize 0. generalize (d :: ds).
      intros l. induction l as [|x l IH]; intros n; cbn; [done|].
      destruct (strconv.isDigit x); [|left; congruence].
      destruct (_ <=? n); [right; congruence|].
      destruct (_ <? _); [right; congruence | apply IH]. }
  destruct He as [-> | ->]; cbn; repeat split; try done; intros [msg ?]; done.
Qed.

(** X16: the errors of the constructors fall into three kinds that exclude
    one another: an error of Chromium, Safari or Firefox is a parse error,
    or wraps ErrUnsupportedVersion, or wraps an error of the TLS library,
    never two of them, and it never wraps ErrUnsupportedPlatform: no
    constructor looks at a platform. *)
Theorem constructor_error_kinds
  (brand : Brand) (version : string) (err : error) :
  Chromium brand version = inr err \/ Safari version = inr err \/
  Firefox version = inr err ->
  (exists k, hasKind err k /\ forall k', hasKind err k' -> k' = k) /\
  errors_Is err ErrUnsupportedPlatform = false.
Proof.
  assert (Hparse : forall e, parseMajorVersion version = inr e ->
            (exists k, hasKind e k /\ forall k', hasKind e k' -> k' = k) /\
            errors_Is e ErrUnsupportedPlatform = false).
  { intros e (Hp & Hv & Hx & Hpl)%parseMajorVersion_error_kind.
    split; [|done]. exists KindParse. split; [done|]. by intros []. }
  assert (Hversion : forall fmt,
            (exists k, hasKind (Errorf fmt [version] (Sentinel ErrUnsupportedVersion)) k /\
                       forall k', hasKind (Errorf fmt [version] (Sentinel ErrUnsupportedVersion)) k' -> k' = k) /\
            errors_Is (Errorf fmt [version] (Sentinel ErrUnsupportedVersion))
              ErrUnsupportedPlatform = false).
  { intros fmt. split; [|done]. exists KindVersion. split; [done|].
    intros []; cbn; try done. by intros [msg ?]. }
  assert (Hprofile : forall id e,
            validateTLSHelloID id = Some e ->
            forall fmt args,
            (exists k, hasKind (Errorf fmt args e) k /\
                       forall k', hasKind (Errorf fmt args e) k' -> k' = k) /\
            errors_Is (Errorf fmt args e) ErrUnsupportedPlatform = false).
  { intros id e Hid fmt args. unfold validateTLSHelloID in Hid.
    destruct (snd (UTLSIdToSpec id)) as [msg|]; [|done].
    injection Hid as <-. split; [|done]. exists KindProfile. split.
    - exists msg. cbn. by rewrite bool_decide_eq_true_2.
    - by intros []. }
  intros [Hc|[Hc|Hc]]; revert Hc.
  - unfold Chromium.
    destruct (parseMajorVersion version) as [[majorStr majorNum]|e] eqn:Hp.
    + destruct (majorNum <? 100); [intros [= <-]; apply Hversion|].
      cbn zeta. destruct (validateTLSHelloID _) as [e|] eqn:Hid; [|done].
      intros [= <-]. by eapply Hprofile.
    + intros [= <-]. by apply Hparse.
  - unfold Safari.
    destruct (parseMajorVersion version) as [[majorStr majorNum]|e] eqn:Hp.
    + destruct (majorNum <? 16); [intros [= <-]; apply Hversion|].
      unfold validateAll.
      destruct (validateTLSHelloID HelloSafari_16_0) as [e|] eqn:Hid.
      { intros [= <-]. by eapply Hprofile. }
      destruct (validateTLSHelloID HelloIOS_14) as [e|] eqn:Hid'; [|done].
      intros [= <-]. by eapply Hprofile.
    + intros [= <-]. by apply Hparse.
  - unfold Firefox.
    destruct (parseMajorVersion version) as [[majorStr majorNum]|e] eqn:Hp.
    + destruct (majorNum <? 55); [intros [= <-]; apply Hversion|].
      cbn zeta. destruct (validateTLSHelloID _) as [e|] eqn:Hid; [|done].
      intros [= <-]. by eapply Hprofile.
    + intros [= <-]. by apply Hparse.
Qed.

(** A successful constructor call validated the identifiers it hands out. *)
Lemma Chromium_resolvable (brand : Brand) (version : string) (c : ClientSpec) :
  Chromium brand version = inl c ->
  exists majorStr majorNum,
    parseMajorVersion version = inl (majorStr, majorNum) /\
    Resolvable (chromiumTLSHelloID majorNum).
Proof.
  unfold Chromium, validateTLSHelloID, Resolvable.
  destruct (parseMajorVersion version) as [[majorStr majorNum]|]; [|done].
  destruct (majorNum <? 100); [done|]. cbn zeta.
  destruct (snd (UTLSIdToSpec _)) eqn:Hres; [done|].
  intros _. by exists majorStr, majorNum.
Qed.

Lemma Firefox_resolvable (version : string) (c : ClientSpec) :
  Firefox version = inl c ->
  exists majorStr majorNum,
    parseMajorVersion version = inl (majorStr, majorNum) /\
    Resolvable (firefoxTLSHelloID majorNum).
Proof.
  unfold Firefox, validateTLSHelloID, Resolvable.
  destruct (parseMajorVersion version) as [[majorStr majorNum]|]; [|done].
  destruct (majorNum <? 55); [done|]. cbn zeta.
  destruct (snd (UTLSIdToSpec _)) eqn:Hres; [done|].
  intros _. by exists majorStr, majorNum.
Qed.

Lemma Safari_resolvable (version : string) (c : ClientSpec) :
  Safari version = inl c ->
  Resolvable HelloSafari_16_0 /\ Resolvable HelloIOS_14.
Proof.
  unfold Safari, validateAll, validateTLSHelloID, Resolvable.
  destruct (parseMajorVersion version) as [[majorStr majorNum]|]; [|done].
  destruct (majorNum <? 16); [done|].
  destruct (snd (UTLSIdToSpec HelloSafari_16_0)); [done|].
  by destruct (snd (UTLSIdToSpec HelloIOS_14)).
Qed.

(** X17: every supplier that a constructed spec hands out was validated at
    construction: whatever the platform, when tlsSpecFn returns a supplier
    it is the supplier of an identifier that the TLS library resolves, so
    the error that newTLSSpecFunc drops is nil. Safari validates both of its
    identifiers whatever platform is used later. *)
Theorem constructed_supplier_resolvable
  (c : ClientSpec) (p : Platform) (f : TLSSpecFunc) :
  constructed c ->
  tlsSpecFn c p = inl f ->
  exists id,
    f = newTLSSpecFunc id /\ Resolvable id /\
    UTLSIdToSpec id = (f tt, None).
Proof.
  intros Hcons Hf.
  assert (Hid : exists id, f = newTLSSpecFunc id /\ Resolvable id).
  { destruct Hcons as [(brand & v & Hc)|[(v & Hc)|(v & Hc)]].
    - destruct (Chromium_resolvable _ _ _ Hc) as (s & n & Hp & Hres).
      apply Chromium_inv in Hc as (s' & n' & Hp' & _ & ->).
      rewrite Hp in Hp'. injection Hp' as <- <-.
      cbn [tlsSpecFn] in Hf. injection Hf as <-. by eexists.
    - destruct (Safari_resolvable _ _ Hc) as [Hs Hi].
      apply Safari_inv in Hc as (s' & n' & _ & _ & ->).
      cbn [tlsSpecFn] in Hf. unfold safariTLSSpecFn in Hf.
      destruct (bool_decide (p = PlatformIOS));
        [injection Hf as <-; by eexists|].
      destruct (_ || _); [injection Hf as <-; by eexists | done].
    - destruct (Firefox_resolvable _ _ Hc) as (s & n & Hp & Hres).
      apply Firefox_inv in Hc as (s' & n' & Hp' & _ & ->).
      rewrite Hp in Hp'. injection Hp' as <- <-.
      cbn [tlsSpecFn] in Hf. injection Hf as <-. by eexists. }
  destruct Hid as (id & -> & Hres). exists id.
  split; [done|]. split; [done|].
  unfold newTLSSpecFunc, Resolvable in *.
  destruct (UTLSIdToSpec id) as [spec e]. cbn in *. by subst.
Qed.

(** X18: only the major number reaches the fingerprint. Two version strings
    that parse to the same major number (whatever follows the first dot,
    and however the number is written) give specs of one family the same
    HTTP/2 profile and the same supplier on every platform; the constructor
    succeeds on one exactly when it succeeds on the other. *)
Theorem fingerprint_depends_on_major_only
  (brand : Brand) (v1 v2 s1 s2 : string) (n : Z) :
  parseMajorVersion v1 = inl (s1, n) ->
  parseMajorVersion v2 = inl (s2, n) ->
  (succeeds (Chromium brand v1) <-> succeeds (Chromium brand v2)) /\
  (succeeds (Safari v1) <-> succeeds (Safari v2)) /\
  (succeeds (Firefox v1) <-> succeeds (Firefox v2)) /\
  (forall c1 c2,
      (Chromium brand v1 = inl c1 /\ Chromium brand v2 = inl c2) \/
      (Safari v1 = inl c1 /\ Safari v2 = inl c2) \/
      (Firefox v1 = inl c1 /\ Firefox v2 = inl c2) ->
      HTTP2Opts c1 = HTTP2Opts c2 /\ tlsSpecFn c1 = tlsSpecFn c2).
Proof.
  intros Hp1 Hp2. unfold succeeds, Chromium, Safari, Firefox.
  rewrite Hp1, Hp2. cbn zeta.
  split; [|split; [|split]].
  - destruct (n <? 100); [split; by intros [? ?]|].
    destruct (validateTLSHelloID _);
      [split; by intros [? ?] | split; intros _; by eexists].
  - destruct (n <? 16); [split; by intros [? ?]|].
    destruct (validateAll _);
      [split; by intros [? ?] | split; intros _; by eexists].
  - destruct (n <? 55); [split; by intros [? ?]|].
    destruct (validateTLSHelloID _);
      [split; by intros [? ?] | split; intros _; by eexists].
  - intros c1 c2 [[H1 H2]|[[H1 H2]|[H1 H2]]]; revert H1 H2.
    + destruct (n <? 100); [done|].
      destruct (validateTLSHelloID _); [done|]. by intros [= <-] [= <-].
    + destruct (n <? 16); [done|].
      destruct (validateAll _); [done|]. by intros [= <-] [= <-].
    + destruct (n <? 55); [done|].
      destruct (validateTLSHelloID _); [done|]. by intros [= <-] [= <-].
Qed.

(** *** What a successful parse says *)

Lemma parseUintLoop_inl (l : list ascii) :
  forall n r,
    0 <= n ->
    strconv.parseUintLoop l n = inl r ->
    forallb strconv.isDigit l = true /\ n <= r <= strconv.maxUint64 \/
    (l = [] /\ r = n).
Proof.
  induction l as [|c rest IH]; intros n r Hn Hl.
  { right. cbn in Hl. by injection Hl as <-. }
  left. cbn [strconv.parseUintLoop] in Hl. cbn [forallb].
  destruct (strconv.isDigit c) eqn:Hd; [|done].
  destruct (Z.leb_spec (strconv.maxUint64 / 10 + 1) n); [done|].
  cbn zeta in Hl.
  destruct (Z.ltb_spec strconv.maxUint64 (n * 10 + (strconv.byteZ c - 48)));
    [done|].
  unfold strconv.isDigit in Hd.
  apply andb_true_iff in Hd as [Hlo Hhi].
  apply Z.leb_le in Hlo, Hhi.
  assert (Hn' : 0 <= n * 10 + (strconv.byteZ c - 48)) by lia.
  destruct (IH _ _ Hn' Hl) as [[Hall Hr]|[-> ->]].
  - split; [done | lia].
  - split; [done | lia].
Qed.

(** X19: when parseMajorVersion succeeds, the text it returns is the part of
    the version before the first dot, that text is a run of decimal digits
    behind at most one sign, and the number lies in the range of a 64-bit
    int. *)
Theorem parseMajorVersion_success (version majorStr : string) (majorNum : Z) :
  parseMajorVersion version = inl (majorStr, majorNum) ->
  majorStr = majorPrefix version /\
  isSignedDecimal majorStr = true /\
  - 2 ^ 63 <= majorNum <= 2 ^ 63 - 1.
Proof.
  unfold parseMajorVersion, strconv.Atoi, strconv.ParseInt, isSignedDecimal.
  destruct (list_ascii_of_string (majorPrefix version)) as [|c rest] eqn:Hs;
    [done|].
  cbn zeta.
  set (digits := if bool_decide (c = "+"%char) || bool_decide (c = "-"%char)
                 then rest else c :: rest).
  destruct (strconv.ParseUint digits) as [un|e] eqn:Hu; [|done].
  assert (Hdigits : isDecimal digits = true /\ 0 <= un <= strconv.maxUint64).
  { unfold strconv.ParseUint in Hu. unfold isDecimal.
    destruct digits as [|d ds]; [done|].
    destruct (parseUintLoop_inl _ 0 _ (Z.le_refl 0) Hu) as [[? ?]|[? _]]; done. }
  destruct Hdigits as [Hdec Hun].
  assert (Hpow : 2 ^ 63 = 9223372036854775808) by reflexivity.
  destruct (bool_decide (c = "-"%char)) eqn:Hneg; cbn [negb andb].
  - destruct (Z.ltb_spec (2 ^ 63) un); [done|].
    intros [= <- <-]. rewrite Hs, Hneg. split; [done|]. split; [|lia].
    unfold digits in Hdec. by rewrite orb_true_r in Hdec |- *.
  - destruct (Z.leb_spec (2 ^ 63) un); [done|].
    intros [= <- <-]. rewrite Hs, Hneg. split; [done|]. split; [|lia].
    unfold digits in Hdec. rewrite orb_false_r in Hdec |- *.
    by destruct (bool_decide (c = "+"%char)).
Qed.

End ConstructorErrors.

Section ConstructorsAtReference.

#[local] Existing Instance Reference.tls.
#[local] Existing Instance Reference.http.
#[local] Existing Instance Reference.grease.

Lemma constructor_error_kinds_witness :
  exists err,
    Safari "15.6" = inr err /\
    hasKind err KindVersion /\
    errors_Is err ErrUnsupportedPlatform = false.
Proof.
  destruct (Safari "15.6") as [|err] eqn:Hc; [discriminate|].
  exists err. split; [reflexivity|].
  destruct (constructor_error_kinds BrandChrome "15.6" err
              (or_intror (or_introl Hc))) as [_ Hplatform].
  split; [injection Hc as <-; reflexivity | exact Hplatform].
Defined.

Lemma constructed_supplier_resolvable_witness :
  exists c f,
    Safari "18.3" = inl c /\
    tlsSpecFn c PlatformIOS = inl f /\
    UTLSIdToSpec HelloIOS_14 = (f tt, None).
Proof.
  destruct constructed_safari_18 as (c & Hc & Hcons).
  assert (Hf : tlsSpecFn c PlatformIOS = inl (newTLSSpecFunc HelloIOS_14)).
  { apply Safari_inv in Hc as (majorStr & majorNum & _ & _ & ->).
    reflexivity. }
  destruct (constructed_supplier_resolvable c PlatformIOS _ Hcons Hf)
    as (id & Hid & _ & Hspec).
  exists c, (newTLSSpecFunc HelloIOS_14).
  split; [exact Hc|]. split; [exact Hf|].
  apply (f_equal (fun g => g tt)) in Hid. cbn in Hid. by subst id.
Defined.

Lemma fingerprint_depends_on_major_only_witness :
  succeeds (Chromium BrandChrome "137.0.0.0") <->
  succeeds (Chromium BrandChrome "137.9").
Proof.
  exact (proj1 (fingerprint_depends_on_major_only BrandChrome
                  "137.0.0.0" "137.9" "137" "137" 137 eq_refl eq_refl)).
Defined.

Lemma parseMajorVersion_success_witness :
  isSignedDecimal "18" = true /\ - 2 ^ 63 <= 18 <= 2 ^ 63 - 1.
Proof.
  exact (proj2 (parseMajorVersion_success "18.3" "18" 18 eq_refl)).
Defined.

End ConstructorsAtReference.

(** ** More on RoundTrip *)

Section RoundTripMore.

Context `{HTTP : HTTPCollaborator} `{RT : GoRuntime}.

Lemma injectDefaults_lookup_ne (defaults h : Header) (k : string) :
  (forall d, is_Some (defaults !! d) -> CanonicalHeaderKey d <> k) ->
  injectDefaults defaults h !! k = h !! k.
Proof.
  intros Hk. unfold injectDefaults.
  destruct (inject_only_fills (rangeOrder defaults) h k) as [Hsame|[_ Hfill]];
    [done|].
  apply filledFrom_defaults in Hfill as (d & v & rest & Hd & Hdk & _).
  destruct (Hk d); [by eexists | done].
Qed.

(** The loop changes nothing when every default with a value finds a
    non-empty value under its name. *)
Lemma inject_noop (l : list (string * slice)) (h : Header) :
  (forall d v rest, (d, Some (v :: rest)) ∈ l ->
                    firstValue h (CanonicalHeaderKey d) <> "") ->
  foldl injectDefault h l = h.
Proof.
  induction l as [|[key values] l IH]; intros Hl; [done|].
  cbn [foldl].
  destruct (injectDefault_cases h key values)
    as [[-> _]|(v & rest & -> & He & _)].
  - apply IH. intros d v rest Hin. apply (Hl d v rest). by right.
  - destruct (Hl key v rest); [by left | done].
Qed.

(** RoundTrip on an allocated header map returns. *)
Lemma RoundTrip_returns (t : Transport) (header : Header) (r : rng) :
  exists header' r' answer,
    RoundTrip t (Some header) r = Some (header', r', answer).
Proof.
  unfold RoundTrip.
  destruct (installHeaderOrder_spec
              (injectDefaults (defaultHeaders t) (pinPseudoHeaderOrder t header)) r)
    as (header' & r' & -> & _).
  by eexists _, _, _.
Qed.

(** X20: whatever the request carries under the pseudo-header-order
    annotation, RoundTrip replaces it by the order of the Transport (when no
    default header is named like the annotation): every request that goes
    through one Transport reaches the base transport with the same
    pseudo-header order. *)
Theorem RoundTrip_pins_pseudo_header_order
  (t : Transport) (header : Header) (r : rng) :
  noPseudoOrderKey (defaultHeaders t) ->
  exists header' r' answer,
    RoundTrip t (Some header) r = Some (header', r', answer) /\
    header' !! PHeaderOrderKey = Some (pseudoHeaderOrder t).
Proof.
  intros Hno. unfold RoundTrip.
  destruct (installHeaderOrder_spec
              (injectDefaults (defaultHeaders t) (pinPseudoHeaderOrder t header)) r)
    as (header' & r' & -> & Hother & _).
  eexists _, _, _. split; [reflexivity|].
  rewrite Hother by done.
  rewrite injectDefaults_lookup_ne by done.
  unfold pinPseudoHeaderOrder. apply lookup_insert_eq.
Qed.

(** X21: a request that carries its own header-order list keeps it: the
    list is left as the caller wrote it, nothing is shuffled and the random
    source is not drawn from; the header map that reaches the base
    transport is the one after the default-header injection. *)
Theorem RoundTrip_keeps_caller_order
  (t : Transport) (header : Header) (r : rng) (order : list string) :
  index header HeaderOrderKey = Some order ->
  noOrderKey (defaultHeaders t) ->
  exists header',
    RoundTrip t (Some header) r
      = Some (header', r, http_RoundTrip (transport t) header') /\
    header' = injectDefaults (defaultHeaders t) (pinPseudoHeaderOrder t header) /\
    header' !! HeaderOrderKey = Some (Some order).
Proof.
  intros Horder Hno. unfold RoundTrip, installHeaderOrder.
  assert (Hkept :
    injectDefaults (defaultHeaders t) (pinPseudoHeaderOrder t header)
      !! HeaderOrderKey = Some (Some order)).
  { rewrite injectDefaults_lookup_ne by done.
    rewrite pinPseudoHeaderOrder_ne by done.
    unfold index in Horder.
    by destruct (header !! HeaderOrderKey) as [[?|]|]; simplify_eq. }
  unfold index. rewrite Hkept. by eexists.
Qed.

(** X22: sending a request object a second time changes nothing. When no
    default header is named like one of the two annotations and the
    defaults have non-empty values, RoundTrip on the header map that a
    first RoundTrip produced returns the same map and the same state of the
    random source: the defaults are not injected again and the header
    order of the first call is kept. *)
Theorem RoundTrip_idempotent
  (t : Transport) (header header1 : Header) (r r1 : rng)
  (answer : Response + error) :
  noOrderKey (defaultHeaders t) ->
  noPseudoOrderKey (defaultHeaders t) ->
  defaultsNonEmpty (defaultHeaders t) ->
  RoundTrip t (Some header) r = Some (header1, r1, answer) ->
  RoundTrip t (Some header1) r1 = Some (header1, r1, answer).
Proof.
  intros Hno Hnop Hne Hrun.
  set (pinned := pinPseudoHeaderOrder t header).
  set (present := injectDefaults (defaultHeaders t) pinned).
  destruct (installHeaderOrder_spec present r)
    as (h' & r' & Hinst & Hother & Hkept & Hnew).
  unfold RoundTrip in Hrun. fold pinned present in Hrun.
  rewrite Hinst in Hrun. injection Hrun as -> -> <-.
  (* the first run left the annotation, the defaults and an order list *)
  assert (Hph : header1 !! PHeaderOrderKey = Some (pseudoHeaderOrder t)).
  { rewrite Hother by done. unfold present.
    rewrite injectDefaults_lookup_ne by done.
    unfold pinned, pinPseudoHeaderOrder. apply lookup_insert_eq. }
  assert (Hfilled : forall d v rest,
            (d, Some (v :: rest)) ∈ rangeOrder (defaultHeaders t) ->
            firstValue header1 (CanonicalHeaderKey d) <> "").
  { intros d v rest Hin.
    assert (Hk : CanonicalHeaderKey d <> HeaderOrderKey).
    { apply Hno. apply elem_of_rangeOrder in Hin. by eexists. }
    unfold firstValue. rewrite (Hother _ Hk). fold (firstValue present (CanonicalHeaderKey d)).
    destruct (decide (firstValue pinned (CanonicalHeaderKey d) = ""))
      as [He|Hfv].
    - apply (inject_fills _ pinned d v rest Hin), filledFrom_defaults in He
        as (d' & v' & rest' & Hd' & _ & Hv).
      unfold firstValue, present, injectDefaults. rewrite Hv.
      by apply (Hne d' v' rest').
    - destruct (inject_only_fills (rangeOrder (defaultHeaders t)) pinned
                  (CanonicalHeaderKey d)) as [Hsame|[He _]]; [|done].
      unfold firstValue, present, injectDefaults. rewrite Hsame.
      exact Hfv. }
  assert (Hidx : index header1 HeaderOrderKey <> None).
  { destruct (index present HeaderOrderKey) as [l|] eqn:Hp.
    - rewrite Hkept by done. by rewrite Hp.
    - destruct (Hnew eq_refl) as (keys & Hkeys & _).
      unfold index. by rewrite Hkeys. }
  unfold RoundTrip.
  assert (Hpin : pinPseudoHeaderOrder t header1 = header1).
  { unfold pinPseudoHeaderOrder. by apply insert_id. }
  rewrite Hpin. unfold injectDefaults at 1.
  rewrite (inject_noop _ _ Hfilled).
  unfold installHeaderOrder.
  destruct (index header1 HeaderOrderKey); done.
Qed.

(** X23: what the installed header-order list holds, on a request without
    one: the pseudo-header-order annotation key itself, the canonical name
    of every default header that has a value, and every name of the
    request; the header-order annotation key is in the list only when the
    request's map had it (with a nil list). *)
Theorem RoundTrip_order_list_contents
  (t : Transport) (header : Header) (r : rng) :
  index header HeaderOrderKey = None ->
  noOrderKey (defaultHeaders t) ->
  exists header' r' answer keys,
    RoundTrip t (Some header) r = Some (header', r', answer) /\
    header' !! HeaderOrderKey = Some (Some keys) /\
    PHeaderOrderKey ∈ keys /\
    (forall d v rest,
        defaultHeaders t !! d = Some (Some (v :: rest)) ->
        CanonicalHeaderKey d ∈ keys) /\
    (forall k, k ∈ dom header -> k ∈ keys) /\
    (HeaderOrderKey ∈ keys <-> HeaderOrderKey ∈ dom header).
Proof.
  intros Hnone Hno.
  destruct (RoundTrip_installs_order t header r Hnone Hno)
    as (header' & r' & answer & keys & Hrun & Hkeys & Hperm & _ & Hdom).
  exists header', r', answer, keys.
  split; [done|]. split; [done|].
  assert (Hin : forall k, k ∈ keys <->
            k ∈ dom (injectDefaults (defaultHeaders t)
                       (pinPseudoHeaderOrder t header))).
  { intros k. by rewrite Hperm, elem_of_elements. }
  assert (Hpinned : forall k,
            k ∈ dom (pinPseudoHeaderOrder t header) <->
            k = PHeaderOrderKey \/ k ∈ dom header).
  { intros k. unfold pinPseudoHeaderOrder.
    by rewrite dom_insert_L, elem_of_union, elem_of_singleton. }
  split; [|split; [|split]].
  - apply Hin, inject_dom. left. apply Hpinned. by left.
  - intros d v rest Hd. apply Hin, inject_dom.
    destruct (decide (firstValue (pinPseudoHeaderOrder t header)
                        (CanonicalHeaderKey d) = "")) as [He|Hfv].
    + right. split; [done|]. exists d, v, rest.
      split; [by apply elem_of_rangeOrder | done].
    + left. apply elem_of_dom. unfold firstValue in Hfv.
      destruct (pinPseudoHeaderOrder t header !! CanonicalHeaderKey d);
        [by eexists | done].
  - intros k Hk. apply Hin. by apply Hdom.
  - rewrite Hin. unfold injectDefaults. rewrite inject_dom, Hpinned. split.
    + intros [[?|?]|[_ (d & v & rest & Hd & Hk)]]; [done|done|].
      apply elem_of_rangeOrder in Hd. destruct (Hno d); [by eexists | done].
    + intros ?. left. by right.
Qed.

End RoundTripMore.

(** ** The defaults of a built Transport *)

Section BuiltTransport.

Context `{HTTP : HTTPCollaborator} `{GT : GreaseTables}.

Lemma noPseudoOrderKey_empty : noPseudoOrderKey ∅.
Proof. intros d [v Hv]. by rewrite lookup_empty in Hv. Qed.

Lemma noPseudoOrderKey_Set (h : Header) (key value : string) :
  toLower key <> toLower PHeaderOrderKey ->
  noPseudoOrderKey h -> noPseudoOrderKey (Header_Set h key value).
Proof.
  intros Hkey Hh d Hd. unfold Header_Set in Hd.
  destruct (decide (CanonicalHeaderKey key = d)) as [<-|Hne].
  - intros Heq. apply Hkey.
    by rewrite <- Heq, !CanonicalHeaderKey_case.
  - rewrite lookup_insert_ne in Hd by done. by apply Hh.
Qed.

Lemma defaultsNonEmpty_empty : defaultsNonEmpty ∅.
Proof. intros d v rest Hd. by rewrite lookup_empty in Hd. Qed.

Lemma defaultsNonEmpty_Set (h : Header) (key value : string) :
  value <> "" -> defaultsNonEmpty h ->
  defaultsNonEmpty (Header_Set h key value).
Proof.
  intros Hv Hh d v rest. unfold Header_Set.
  destruct (decide (CanonicalHeaderKey key = d)) as [<-|Hne].
  - rewrite lookup_insert_eq. by intros [= <-].
  - rewrite lookup_insert_ne by done. apply Hh.
Qed.

Lemma Join_brandEntry_nonempty (entries : list (string * string)) :
  entries <> [] -> Join (brandEntry <$> entries) ", " <> "".
Proof.
  destruct entries as [|e [|e' rest]]; [done|done|]. intros _. done.
Qed.

Lemma clientHintUA_nonempty (brand : Brand) (majorStr : string) (majorNum : Z) :
  clientHintUA brand majorStr majorNum <> "".
Proof.
  unfold clientHintUA. apply Join_brandEntry_nonempty.
  destruct (permuteBy_three (greaseOrder majorNum) (greaseBrand majorNum)
              ("Chromium", majorStr) (brand, majorStr)
              (greaseOrder_perm majorNum)) as [_ (i & _ & _ & _ & Hi & _)].
  unfold brandVersionList. intros Hnil.
  assert (Hbad : ([] : list (string * string)) !! i
                 = Some (greaseBrand majorNum))
    by exact (eq_trans (f_equal (fun l => l !! i) (eq_sym Hnil)) Hi).
  by rewrite lookup_nil in Hbad.
Qed.

(** X24: the default headers of a Transport that NewTransport builds from a
    constructed spec are well formed: none is named like the header-order
    or the pseudo-header-order annotation, and each has a non-empty first
    value; the pseudo-header order of the Transport is the one of the
    spec. *)
Theorem NewTransport_defaults_wellformed
  (c : ClientSpec) (p : Platform) (opts : list TransportOption)
  (T : Transport) :
  constructed c ->
  snd (NewTransport c p opts) = inl T ->
  noOrderKey (defaultHeaders T) /\
  noPseudoOrderKey (defaultHeaders T) /\
  defaultsNonEmpty (defaultHeaders T) /\
  pseudoHeaderOrder T = Some (ClientSpec_PseudoHeaderOrder c).
Proof.
  intros Hcons Hnew.
  assert (Hbuilt : buildHeaders c p = inl (defaultHeaders T) /\
                   pseudoHeaderOrder T = Some (ClientSpec_PseudoHeaderOrder c)).
  { unfold NewTransport in Hnew.
    destruct (ConfigureTransport c _ p) as [t' [err|]]; [done|].
    destruct (buildHeaders c p) as [h|err]; [|done].
    cbn in Hnew. by injection Hnew as <-. }
  destruct Hbuilt as [Hh Hps]. split; [|split; [|split; [|done]]].
  - destruct Hcons as [(brand & v & Hc)|[(v & Hc)|(v & Hc)]].
    + exact (built_defaults_noOrderKey brand v c p _ (or_introl Hc) Hh).
    + exact (built_defaults_noOrderKey BrandChrome v c p _
               (or_intror (or_introl Hc)) Hh).
    + exact (built_defaults_noOrderKey BrandChrome v c p _
               (or_intror (or_intror Hc)) Hh).
  - destruct Hcons as [(brand & v & Hc)|[(v & Hc)|(v & Hc)]].
    + apply Chromium_inv in Hc as (s & n & _ & _ & ->).
      cbn [buildHeaders] in Hh.
      apply chromiumBuildHeaders_inv in Hh as (ua & hint & _ & Hh).
      cbn zeta in Hh. rewrite Hh.
      repeat (apply noPseudoOrderKey_Set; [vm_compute; discriminate|]).
      apply noPseudoOrderKey_empty.
    + apply Safari_inv in Hc as (s & n & _ & _ & ->).
      cbn [buildHeaders] in Hh.
      apply safariBuildHeaders_inv in Hh as (ua & Hh & _). rewrite Hh.
      apply noPseudoOrderKey_Set; [vm_compute; discriminate|].
      apply noPseudoOrderKey_empty.
    + apply Firefox_inv in Hc as (s & n & _ & _ & ->).
      cbn [buildHeaders] in Hh.
      apply firefoxBuildHeaders_inv in Hh as (ua & Hh & _). rewrite Hh.
      apply noPseudoOrderKey_Set; [vm_compute; discriminate|].
      apply noPseudoOrderKey_empty.
  - destruct Hcons as [(brand & v & Hc)|[(v & Hc)|(v & Hc)]].
    + apply Chromium_inv in Hc as (s & n & _ & _ & ->).
      cbn [buildHeaders] in Hh.
      apply chromiumBuildHeaders_inv in Hh as (ua & hint & _ & Hh).
      cbn zeta in Hh. rewrite Hh.
      apply defaultsNonEmpty_Set; [done|].
      apply defaultsNonEmpty_Set; [done|].
      apply defaultsNonEmpty_Set; [apply clientHintUA_nonempty|].
      apply defaultsNonEmpty_Set; [by destruct (bool_decide _)|].
      apply defaultsNonEmpty_empty.
    + apply Safari_inv in Hc as (s & n & _ & _ & ->).
      cbn [buildHeaders] in Hh. unfold safariBuildHeaders in Hh.
      repeat (destruct (bool_decide _); [|]); try discriminate;
        injection Hh as Hh; rewrite <- Hh;
        (apply defaultsNonEmpty_Set; [done | apply defaultsNonEmpty_empty]).
    + apply Firefox_inv in Hc as (s & n & _ & _ & ->).
      cbn [buildHeaders] in Hh. unfold firefoxBuildHeaders in Hh.
      repeat (destruct (bool_decide _); [|]); try discriminate;
        injection Hh as Hh; rewrite <- Hh;
        (apply defaultsNonEmpty_Set; [done | apply defaultsNonEmpty_empty]).
Qed.

End BuiltTransport.

Section RoundTripMoreAtReference.

#[local] Existing Instance Reference.tls.
#[local] Existing Instance Reference.http.
#[local] Existing Instance Reference.runtime.
#[local] Existing Instance Reference.grease.

Lemma NewTransport_succeeds_at_mac (c : ClientSpec) :
  Safari "18.3" = inl c ->
  exists T, snd (NewTransport c PlatformMac []) = inl T.
Proof.
  intros Hc. apply Safari_inv in Hc as (majorStr & majorNum & _ & _ & ->).
  by eexists.
Defined.

Lemma sampleTransport_noPseudoOrderKey :
  noPseudoOrderKey (defaultHeaders Reference.sampleTransport).
Proof.
  apply noPseudoOrderKey_Set;
    [vm_compute; discriminate | apply noPseudoOrderKey_empty].
Defined.

Lemma sampleTransport_defaultsNonEmpty :
  defaultsNonEmpty (defaultHeaders Reference.sampleTransport).
Proof.
  apply defaultsNonEmpty_Set; [discriminate | apply defaultsNonEmpty_empty].
Defined.

Lemma RoundTrip_pins_pseudo_header_order_witness :
  exists header',
    Reference.sentHeader
      (RoundTrip Reference.sampleTransport (Some orderedRequest) 0%nat)
      = Some header' /\
    header' !! PHeaderOrderKey
      = Some (Some [":method"; ":path"; ":authority"; ":scheme"]).
Proof.
  destruct (RoundTrip_pins_pseudo_header_order (RT := Reference.runtime)
              Reference.sampleTransport orderedRequest 0%nat
              sampleTransport_noPseudoOrderKey)
    as (header' & r' & answer & Hrun & Hph).
  exists header'. rewrite Hrun. split; [reflexivity | exact Hph].
Defined.

Lemma RoundTrip_keeps_caller_order_witness :
  exists header',
    RoundTrip Reference.sampleTransport (Some orderedRequest) 7%nat
      = Some (header', 7%nat, inl tt) /\
    header' !! HeaderOrderKey = Some (Some ["accept"; "user-agent"]).
Proof.
  destruct (RoundTrip_keeps_caller_order (RT := Reference.runtime)
              Reference.sampleTransport orderedRequest 7%nat
              ["accept"; "user-agent"] eq_refl sampleTransport_noOrderKey)
    as (header' & Hrun & _ & Horder).
  exists header'. split; [exact Hrun | exact Horder].
Defined.

Lemma RoundTrip_idempotent_witness :
  exists header1 r1 answer,
    RoundTrip Reference.sampleTransport (Some Reference.bareRequest) 5%nat
      = Some (header1, r1, answer) /\
    RoundTrip Reference.sampleTransport (Some header1) r1
      = Some (header1, r1, answer).
Proof.
  destruct (RoundTrip_returns (RT := Reference.runtime)
              Reference.sampleTransport Reference.bareRequest 5%nat)
    as (header1 & r1 & answer & Hrun).
  exists header1, r1, answer. split; [exact Hrun|].
  exact (RoundTrip_idempotent (RT := Reference.runtime)
           Reference.sampleTransport Reference.bareRequest header1 5%nat r1
           answer sampleTransport_noOrderKey sampleTransport_noPseudoOrderKey
           sampleTransport_defaultsNonEmpty Hrun).
Defined.

Lemma RoundTrip_order_list_contents_witness :
  exists header' keys,
    Reference.sentHeader
      (RoundTrip Reference.sampleTransport (Some Reference.bareRequest) 5%nat)
      = Some header' /\
    header' !! HeaderOrderKey = Some (Some keys) /\
    PHeaderOrderKey ∈ keys.
Proof.
  destruct (RoundTrip_order_list_contents (RT := Reference.runtime)
              Reference.sampleTransport Reference.bareRequest 5%nat
              eq_refl sampleTransport_noOrderKey)
    as (header' & r' & answer & keys & Hrun & Hkeys & Hph & _).
  exists header', keys. rewrite Hrun.
  split; [reflexivity|]. split; [exact Hkeys | exact Hph].
Defined.

Lemma NewTransport_defaults_wellformed_witness :
  exists c T,
    Safari "18.3" = inl c /\
    snd (NewTransport c PlatformMac []) = inl T /\
    defaultsNonEmpty (defaultHeaders T) /\
    pseudoHeaderOrder T = Some (ClientSpec_PseudoHeaderOrder c).
Proof.
  destruct constructed_safari_18 as (c & Hc & Hcons).
  destruct (NewTransport_succeeds_at_mac c Hc) as [T Hnew].
  exists c, T. split; [exact Hc|]. split; [exact Hnew|].
  destruct (NewTransport_defaults_wellformed c PlatformMac [] T Hcons Hnew)
    as (_ & _ & Hne & Hps).
  split; [exact Hne | exact Hps].
Defined.

End RoundTripMoreAtReference.
